(** * plot_spectra.py: population statistics of [PlottingSpectra]

    A shallow embedding of the binning, histogram, conditional breakdown,
    correlation-map and KS-sample code of [src/plot_spectra.py].

    Conventions of the embedding.
    - A numpy [float64] array is a [list R]: finite floats are read as the
      real numbers they denote and arithmetic is exact.  The non-finite
      values that [np.log10] produces are kept apart in [xfloat].
    - Integer arrays (histogram counts, halo indices) are [list Z]; index
      arrays as returned by [np.where] are [list nat].
    - A Python call either returns, raises, or lets a NaN or an infinity
      into [np.min], [np.max] or [np.arange], where the reals cannot follow
      it any further: [outcome].
    - Drawing is an effect on the current figure: the [plt] monad threads
      the list of curves drawn so far.
    - Arrays handed out by the accessors are shared objects: [heap]. *)

From Stdlib Require Import String.
From Stdlib Require Import Reals Lra Lia List ZArith Bool Arith Sorted.
Import ListNotations.
Local Open Scope R_scope.

(** ** Python values and control *)

Module Py.

Inductive exn : Type :=
| ValueError
| IndexError.

Inductive outcome (A : Type) : Type :=
| Ok (a : A)
| Raise (e : exn)
| NonFinite.

Arguments Ok {A} a.
Arguments Raise {A} e.
Arguments NonFinite {A}.

Definition bind {A B : Type} (m : outcome A) (k : A -> outcome B) : outcome B :=
  match m with
  | Ok a => k a
  | Raise e => Raise e
  | NonFinite => NonFinite
  end.

(** [t[i]] on a tuple, with a non-negative index. *)
Definition subscript {A : Type} (t : list A) (i : nat) : outcome A :=
  match nth_error t i with
  | Some a => Ok a
  | None => Raise IndexError
  end.

End Py.

Import Py.

Declare Scope py_scope.
Delimit Scope py_scope with py.
Notation "x <- m ;; k" := (Py.bind m (fun x => k))
  (at level 61, m at next level, right associativity) : py_scope.

(** Comparisons of floats, as booleans. *)
Definition Rltb (x y : R) : bool := if Rlt_dec x y then true else false.
Definition Rleb (x y : R) : bool := if Rle_dec x y then true else false.

(** ** The numpy functions the module calls

    numpy is read as its release 1.16, the last one for Python 2, which
    the module is written in: [np.histogram] checks that the edges do not
    decrease and is defined for any number of edges. *)

Module Np.

(** What [np.log10] can return on a finite argument. *)
Inductive xfloat : Type :=
| Fin (r : R)
| NegInf
| NaN.

(** [np.log10]: a warning, not an exception, outside the domain. *)
Definition log10 (x : R) : xfloat :=
  if Rlt_dec 0 x then Fin (ln x / ln 10)
  else if Req_dec_T x 0 then NegInf
  else NaN.

(** [10 ** x]. *)
Definition pow10 (x : R) : R := Rpower 10 x.

(** The finite values of an array, if all of them are. *)
Fixpoint finite (a : list xfloat) : outcome (list R) :=
  match a with
  | [] => Ok []
  | Fin r :: t => (l <- finite t ;; Ok (r :: l))%py
  | _ :: _ => NonFinite
  end.

(** [np.min], [np.max]: no identity on an empty array. *)
Definition min (a : list R) : outcome R :=
  match a with
  | [] => Raise ValueError
  | x :: t => Ok (fold_left Rmin t x)
  end.

Definition max (a : list R) : outcome R :=
  match a with
  | [] => Raise ValueError
  | x :: t => Ok (fold_left Rmax t x)
  end.

(** [np.arange(start, stop, step)]: [ceil((stop - start) / step)]
    values [start + i * step]; a zero step divides by zero.  The quotient
    is the exact one: numpy takes it in [float64], where a quotient that
    rounds up past an integer gives one value more, close to [stop]. *)
Definition arange (start stop step : R) : outcome (list R) :=
  if Req_dec_T step 0 then NonFinite
  else Ok (map (fun i => start + INR i * step)
             (seq 0 (Z.to_nat (Zceil ((stop - start) / step))))).

(** [np.where(mask)[0]]: the positions of the true entries. *)
Fixpoint where_from (k : nat) (mask : list bool) : list nat :=
  match mask with
  | [] => []
  | b :: m => if b then k :: where_from (S k) m else where_from (S k) m
  end.

Definition where_ (mask : list bool) : list nat := where_from 0 mask.

(** [a[idx]] with an integer index array: a new array. *)
Fixpoint take {A : Type} (a : list A) (idx : list nat) : outcome (list A) :=
  match idx with
  | [] => Ok []
  | i :: r => (x <- subscript a i ;; l <- take a r ;; Ok (x :: l))%py
  end.

(** An index array is a boolean mask or an array of positions; [a[mask]]
    is [a[mask.nonzero()]] and wants a mask as long as the array. *)
Inductive index : Type :=
| Mask (m : list bool)
| Ints (i : list nat).

Definition getitem {A : Type} (a : list A) (ix : index) : outcome (list A) :=
  match ix with
  | Ints i => take a i
  | Mask m =>
      if (length m =? length a)%nat then take a (where_ m) else Raise IndexError
  end.

(** [np.sort]. *)
Fixpoint insert (x : R) (l : list R) : list R :=
  match l with
  | [] => [x]
  | y :: t => if Rleb x y then x :: y :: t else y :: insert x t
  end.

Definition sort (a : list R) : list R := fold_right insert [] a.

(** [sa.searchsorted(v, 'left')] and [sa.searchsorted(v, 'right')] on a
    sorted array: the first position whose element is not below [v],
    respectively is above [v]. *)
Fixpoint searchsorted_left (sa : list R) (v : R) : nat :=
  match sa with
  | [] => 0
  | x :: t => if Rltb x v then S (searchsorted_left t v) else 0
  end.

Fixpoint searchsorted_right (sa : list R) (v : R) : nat :=
  match sa with
  | [] => 0
  | x :: t => if Rleb x v then S (searchsorted_right t v) else 0
  end.

(** [_search_sorted_inclusive(sa, v)]: left positions for [v[:-1]], the
    right position for [v[-1:]]. *)
Fixpoint search_sorted_inclusive (sa : list R) (v : list R) : list Z :=
  match v with
  | [] => []
  | [e] => [Z.of_nat (searchsorted_right sa e)]
  | e :: t => Z.of_nat (searchsorted_left sa e) :: search_sorted_inclusive sa t
  end.

(** [np.diff]. *)
Fixpoint diff (c : list Z) : list Z :=
  match c with
  | x :: ((y :: _) as t) => (y - x)%Z :: diff t
  | _ => []
  end.

(** [np.any(bins[:-1] > bins[1:])] negated. *)
Fixpoint monotone (bins : list R) : bool :=
  match bins with
  | x :: ((y :: _) as t) => negb (Rltb y x) && monotone t
  | _ => true
  end.

(** [np.histogram(a, bins)[0]] for an array of edges: counts through
    the cumulative histogram of the sorted data. *)
Definition histogram (a bins : list R) : outcome (list Z) :=
  if monotone bins
  then Ok (diff (search_sorted_inclusive (sort a) bins))
  else Raise ValueError.

(** [np.linspace(start, stop, num)]. *)
Definition linspace (start stop : R) (num : nat) : list R :=
  map (fun i => start + INR i * ((stop - start) / INR (num - 1))) (seq 0 num).

(** The outer edges [np.histogram2d] finds for one axis: 0 and 1 without
    data, and a range of no width is widened by a half on either side. *)
Definition outer_edges (a : list R) : R * R :=
  match a with
  | [] => (0, 1)
  | x :: t =>
      let first_edge := fold_left Rmin t x in
      let last_edge := fold_left Rmax t x in
      if Req_dec_T first_edge last_edge
      then (first_edge - / 2, last_edge + / 2)
      else (first_edge, last_edge)
  end.

(** The edges [np.histogram2d(x, y, bins=nbins)] returns for one axis. *)
Definition histogram2d_edges (a : list R) (nbins : nat) : outcome (list R) :=
  match nbins with
  | O => Raise ValueError
  | S _ => Ok (linspace (fst (outer_edges a)) (snd (outer_edges a)) (nbins + 1))
  end.

End Np.

Import Np.

(** ** The figure *)

Record curve : Type := {
  logx : bool;
  xdata : list R;
  ydata : list R;
  color : string;
  ls : string;
  label : string
}.

Definition plt (A : Type) : Type := list curve -> list curve * outcome A.

Definition ret {A : Type} (a : A) : plt A := fun fig => (fig, Ok a).

Definition lift {A : Type} (m : outcome A) : plt A := fun fig => (fig, m).

Definition pbind {A B : Type} (m : plt A) (k : A -> plt B) : plt B :=
  fun fig =>
    match m fig with
    | (fig', Ok a) => k a fig'
    | (fig', Raise e) => (fig', Raise e)
    | (fig', NonFinite) => (fig', NonFinite)
    end.

(** [plt.plot] and [plt.semilogx]: one more curve on the figure. *)
Definition draw (c : curve) : plt unit := fun fig => (fig ++ [c], Ok tt).

Declare Scope plt_scope.
Delimit Scope plt_scope with plt.
Notation "x <- m ;; k" := (pbind m (fun x => k))
  (at level 61, m at next level, right associativity) : plt_scope.

(** [for ii in xrange(n)], left at the first exception. *)
Fixpoint for_each (body : nat -> plt unit) (iis : list nat) : plt unit :=
  match iis with
  | [] => ret tt
  | ii :: r => (_ <- body ii ;; for_each body r)%plt
  end.

(** ** PlottingSpectra *)

(** Modelled from the spec: [find_nearest_halo] and [virial_vel] belong to
    spectra.py, which is not part of the sources; they are the accessors
    [get_nearest_halo] and [virial_velocity] of section 6: the nearest halo
    of every sightline (negative for none) and the virial velocity of a
    halo index, applied element by element. *)
Record Spectra : Type := {
  find_nearest_halo : list Z;
  sub_virial : Z -> R
}.

Definition virial_vel (self : Spectra) (halos : list Z) : list R :=
  map (sub_virial self) halos.

(** [[(v_table[i]+v_table[i+1])/2. for i in range(0,np.size(v_table)-1)]] *)
Definition bin_centers (v_table : list R) : list R :=
  map (fun i => (nth i v_table 0 + nth (S i) v_table 0) / 2)
    (seq 0 (length v_table - 1)).

(** Lines 266-271 of [_plot_breakdown]: the bin edges. *)
Definition make_v_table (log : bool) (array : list R) (dv : R) : outcome (list R) :=
  if log then
    (logs <- finite (map log10 array) ;;
     lo <- Np.min logs ;;
     hi <- Np.max logs ;;
     e <- arange lo hi dv ;;
     Ok (map pow10 e))%py
  else
    (lo <- Np.min array ;;
     hi <- Np.max array ;;
     arange lo hi dv)%py.

(** [vhist[np.where(vhist == 0)] = 1] *)
Definition zero_subst (vhist : list Z) : list Z :=
  map (fun c => if (c =? 0)%Z then 1%Z else c) vhist.

(** [vhist2/(1.*vhist)] *)
Definition fraction (vhist2 vhist : list Z) : list R :=
  map (fun p => IZR (fst p) / (1 * IZR (snd p))) (combine vhist2 vhist).

(** What lines 261-275 of [_plot_breakdown] leave in its local variables;
    [vhist0] is the reference histogram as counted, [vhist] the same array
    after the zero counts were overwritten. *)
Record breakdown_env : Type := {
  ind : list nat;
  virial : list R;
  array_f : list R;
  v_table : list R;
  vbin : list R;
  vhist0 : list Z;
  vhist : list Z
}.

Definition breakdown_setup (self : Spectra) (array : list R) (filt : index)
    (dv : R) (log : bool) : outcome breakdown_env :=
  (let halo := find_nearest_halo self in
   halo_f <- getitem halo filt ;;
   let ind := where_ (map (fun h => (0 <? h)%Z) halo_f) in
   halo_fi <- take halo_f ind ;;
   let virial := virial_vel self halo_fi in
   array <- getitem array filt ;;
   v_table <- make_v_table log array dv ;;
   let vbin := bin_centers v_table in
   vhist0 <- histogram array v_table ;;
   Ok {| ind := ind; virial := virial; array_f := array; v_table := v_table;
         vbin := vbin; vhist0 := vhist0; vhist := zero_subst vhist0 |})%py.

Definition colors : list string := ["red"; "purple"; "cyan"]%string.
Definition lss : list string := ["--"; ":"; "-"]%string.

(** [np.where((virial > low[ii])*(virial < high[ii]))] *)
Definition range_select (virial : list R) (lo hi : R) : list nat :=
  where_ (map (fun v => Rltb lo v && Rltb v hi) virial).

(** Lines 280-282: the body of the loop over the ranges. *)
Definition breakdown_range (env : breakdown_env) (low high : list R)
    (labels : list string) (log : bool) (ii : nat) : plt unit :=
  (lo <- lift (subscript low ii) ;;
   hi <- lift (subscript high ii) ;;
   let vind := range_select (virial env) lo hi in
   halo_vals <- lift (take (array_f env) (ind env)) ;;
   subset <- lift (take halo_vals vind) ;;
   vhist2 <- lift (histogram subset (v_table env)) ;;
   col <- lift (subscript colors ii) ;;
   sty <- lift (subscript lss ii) ;;
   lab <- lift (subscript labels ii) ;;
   draw {| logx := log; xdata := vbin env;
           ydata := fraction vhist2 (vhist env);
           color := col; ls := sty; label := lab |})%plt.

Definition _plot_breakdown (self : Spectra) (array : list R) (filt : index)
    (low high : list R) (labels : list string) (dv : R) (log : bool) : plt unit :=
  (env <- lift (breakdown_setup self array filt dv log) ;;
   for_each (breakdown_range env low high labels log) (seq 0 (length low)))%plt.

(** [plot_sep_frac], lines 221-229, given what the accessors
    [vel_width], [get_filt] and [get_separated] return. *)
Definition plot_sep_frac (vels : list R) (ind sep : index) (dv : R)
    (color ls label : string) : plt unit :=
  (e <- lift (arange 1 3 dv) ;;
   let v_table := map pow10 e in
   let vbin := bin_centers v_table in
   vels_f <- lift (getitem vels ind) ;;
   hist1 <- lift (histogram vels_f v_table) ;;
   vels_sep <- lift (getitem vels_f sep) ;;
   hist2 <- lift (histogram vels_sep v_table) ;;
   let hist1 := zero_subst hist1 in
   draw {| logx := true; xdata := vbin; ydata := fraction hist2 hist1;
           color := color; ls := ls; label := label |})%plt.

(** [np.log10(vals)] when the axis is logarithmic. *)
Definition log_axis (log : bool) (vals : list R) : list xfloat :=
  if log then map log10 vals else map Fin vals.

(** Lines 388-391 of [_plot_2d_contour]. *)
Definition contour_transform (ylog xlog : bool) (xvals yvals : list R)
    : outcome (list xfloat * list xfloat) :=
  let yvals := log_axis ylog yvals in
  let xvals := log_axis xlog xvals in
  Ok (xvals, yvals).

(** [[(edges[i+1]+edges[i])/2 for i in xrange(0,np.size(edges)-1)]] *)
Definition edge_centers (edges : list R) : list R :=
  map (fun i => (nth (S i) edges 0 + nth i edges 0) / 2)
    (seq 0 (length edges - 1)).

Record contour_axes : Type := {
  xedges : list R;
  yedges : list R;
  xbins : list R;
  ybins : list R
}.

(** Lines 388-401 of [_plot_2d_contour]: the edges of the two axes and
    the bin centres handed to [plt.contourf]. *)
Definition _plot_2d_contour (xvals yvals : list R) (nbins : nat)
    (ylog xlog : bool) : outcome contour_axes :=
  (t <- contour_transform ylog xlog xvals yvals ;;
   xvals <- finite (fst t) ;;
   yvals <- finite (snd t) ;;
   xedges <- histogram2d_edges xvals nbins ;;
   yedges <- histogram2d_edges yvals nbins ;;
   let xbins := edge_centers xedges in
   let ybins := edge_centers yedges in
   let ybins := if ylog then map pow10 ybins else ybins in
   let xbins := if xlog then map pow10 xbins else xbins in
   Ok {| xedges := xedges; yedges := yedges; xbins := xbins; ybins := ybins |})%py.

(** A two-column array [np.array([a, b]).T], kept as its two columns. *)
Definition sample : Type := (list xfloat * list xfloat)%type.

(** Lines 411-416 of [kstest]: the two samples, [data] from the external
    dataset and [data2] from the simulation. *)
Definition kstest_samples (metallicity vel_width : list R) (ind : index)
    (Zdata veldata : list R) : outcome (sample * sample) :=
  (met <- getitem metallicity ind ;;
   let met := map log10 met in
   vel <- getitem vel_width ind ;;
   let vel := map log10 vel in
   let data2 := (met, vel) in
   let data := (map log10 Zdata, map log10 veldata) in
   Ok (data, data2))%py.

Section KSTest.

(** The statistic of the [kstest] module, which is not part of the sources. *)
Variable ks_2d_2samp : sample -> sample -> outcome R.

Definition kstest (metallicity vel_width : list R) (ind : index)
    (Zdata veldata : list R) : outcome R :=
  (d <- kstest_samples metallicity vel_width ind Zdata veldata ;;
   ks_2d_2samp (fst d) (snd d))%py.

End KSTest.

(** ** Arrays shared with the accessors

    [get_temp], [get_density] and [get_velocity] hand out array objects;
    a method that writes through such an object changes it for everyone
    who holds it. *)

Definition vec3 : Type := (R * R * R)%type.

Record heap : Type := {
  arrays2 : list (list (list R));
  arrays3 : list (list (list vec3))
}.

Definition ref : Type := nat.

Fixpoint update {A : Type} (l : list A) (i : nat) (v : A) : list A :=
  match l, i with
  | [], _ => []
  | _ :: t, O => v :: t
  | x :: t, S j => x :: update t j v
  end.

Definition load2 (h : heap) (r : ref) : list (list R) := nth r (arrays2 h) [].
Definition load3 (h : heap) (r : ref) : list (list vec3) := nth r (arrays3 h) [].

Definition store2 (h : heap) (r : ref) (a : list (list R)) : heap :=
  {| arrays2 := update (arrays2 h) r a; arrays3 := arrays3 h |}.

Definition store3 (h : heap) (r : ref) (a : list (list vec3)) : heap :=
  {| arrays2 := arrays2 h; arrays3 := update (arrays3 h) r a |}.

(** Lines 190-193 of [plot_temp], [temp] and [den] being the objects that
    [get_temp] and [get_density] returned:
    [ind = np.where(den < 1e-6); den[ind] = 0.] *)
Definition plot_temp_arrays (temp den : ref) (h : heap) : heap :=
  store2 h den (map (map (fun d => if Rltb d 1e-6 then 0 else d)) (load2 h den)).

(** A Python subscript on an axis of length [n]; negative ones count from
    the end. *)
Definition normalize_index (n : nat) (i : Z) : outcome nat :=
  if ((0 <=? i) && (i <? Z.of_nat n))%Z then Ok (Z.to_nat i)
  else if ((- Z.of_nat n <=? i) && (i <? 0))%Z then Ok (Z.to_nat (Z.of_nat n + i))
  else Raise IndexError.

Definition component (ax : nat) (v : vec3) : R :=
  match ax with
  | O => fst (fst v)
  | S O => snd (fst v)
  | _ => snd v
  end.

Definition set_component (ax : nat) (x : R) (v : vec3) : vec3 :=
  match ax with
  | O => (x, snd (fst v), snd v)
  | S O => (fst (fst v), x, snd v)
  | _ => (fst (fst v), snd (fst v), x)
  end.

Definition Reqb (x y : R) : bool := if Req_dec_T x y then true else false.

(** Lines 157-164 of [plot_den_to_tau]: the velocity array after
    [vel -= vel[imax]-voff], [vel] being the view
    [get_velocity(elem, ion)[num, :, ax]]. *)
Definition shifted_velocity (axis : list Z) (density : list (list R))
    (velocity : list (list vec3)) (num : nat) (voff : R)
    : outcome (list (list vec3)) :=
  (den <- subscript density num ;;
   peak <- Np.max den ;;
   imax <- subscript (where_ (map (fun d => Reqb d peak) den)) 0 ;;
   a <- subscript axis num ;;
   ax <- normalize_index 3 (a - 1) ;;
   row <- subscript velocity num ;;
   let vel := map (component ax) row in
   vmax <- subscript vel imax ;;
   let shift := vmax - voff in
   Ok (update velocity num
         (map (fun v => set_component ax (component ax v - shift) v) row)))%py.

(** The stored arrays after lines 157-164, [den] and [vel] being the
    objects that [get_density] and [get_velocity] returned.  [Ok tt] says
    that line 164 was executed, not that the method returns: lines 165-186
    go on to compute the pixel coordinates and to draw, may still raise,
    and assign to no stored array, so the heap given here is the heap at
    the end of the call either way. *)
Definition plot_den_to_tau_arrays (axis : list Z) (den vel : ref) (num : nat)
    (voff : R) (h : heap) : heap * outcome unit :=
  match shifted_velocity axis (load2 h den) (load3 h vel) num voff with
  | Ok v => (store3 h vel v, Ok tt)
  | Raise e => (h, Raise e)
  | NonFinite => (h, NonFinite)
  end.

(** [plot_vel_width_breakdown], lines 236-238, and [plot_f_peak_breakdown],
    lines 248-250, given what the accessors [vel_width], [vel_peak] and
    [get_filt] return; the labels and limits of the axes are left out. *)
Definition plot_vel_width_breakdown (self : Spectra) (vels : list R)
    (ii : index) (dv : R) : plt unit :=
  _plot_breakdown self vels ii [0; 60; 120] [60; 120; 900]
    ["< 60"; "60-120"; "> 120"]%string dv true.

Definition plot_f_peak_breakdown (self : Spectra) (vels : list R)
    (ii : index) (dv : R) : plt unit :=
  _plot_breakdown self vels ii [0; 50] [50; 900] ["< 50"; "> 50"]%string
    dv false.

(** [np.roll(a, shift)] on a one-dimensional array: entry [i] moves to
    position [i + shift], counted round the array. *)
Definition roll (a : list R) (shift : Z) : list R :=
  map (fun i =>
         nth (Z.to_nat ((Z.of_nat i - shift) mod Z.of_nat (length a))) a 0)
    (seq 0 (length a)).

(** [plot_density], lines 136-142, [density] being what [get_density]
    returned: the two arrays handed to [plt.semilogy].  The divisions of
    sizes by 2 are divisions of Python 2 integers; a [velfac] of zero
    makes [phys] a division by zero. *)
Definition plot_density (density : list (list R)) (num : nat)
    (dvbin velfac : R) : outcome (list R * list R) :=
  (row <- subscript density num ;;
   mcol <- Np.max row ;;
   ind_m <- subscript (where_ (map (fun d => Reqb d mcol) row)) 0 ;;
   let den := roll row (Z.of_nat (length row) / 2 - Z.of_nat ind_m) in
   phys <- (if Req_dec_T velfac 0 then NonFinite else Ok (dvbin / velfac)) ;;
   Ok (map (fun i => INR i * phys - IZR (Z.of_nat (length den) / 2) * phys)
         (seq 0 (length den)),
       map (fun d => d + 1e-30) den))%py.

(** [np.diff(bin_edges)] on an array of floats. *)
Fixpoint edge_widths (bins : list R) : list R :=
  match bins with
  | x :: ((y :: _) as t) => (y - x) :: edge_widths t
  | _ => []
  end.

(** [np.histogram(a, bins, density=True)[0]], which is [n/db/n.sum()]; a
    bin without width, or counts that add up to zero, divide by zero. *)
Definition histogram_density (a bins : list R) : outcome (list R) :=
  (n <- histogram a bins ;;
   let db := edge_widths bins in
   let s := fold_right Z.add 0%Z n in
   if existsb (fun w => Reqb w 0) db
      || ((s =? 0)%Z && negb (length n =? 0)%nat)
   then NonFinite
   else Ok (map (fun p => IZR (fst p) / snd p / IZR s) (combine n db)))%py.

(** [_plot_metallicity], lines 318-322; a metallicity that is not
    positive puts an infinity or a NaN among the data of the histogram. *)
Definition _plot_metallicity (met : list R) (nbins : nat)
    (color ls label : string) : plt unit :=
  (let bins := linspace (-3) 0 nbins in
   let mbin := bin_centers bins in
   logs <- lift (finite (map log10 met)) ;;
   hist <- lift (histogram_density logs bins) ;;
   draw {| logx := false; xdata := mbin; ydata := hist;
           color := color; ls := ls; label := label |})%plt.

(** [plot_Z_vs_vel_width], lines 347-353, given what [vel_width] and
    [get_metallicity] return, as far as the bin centres of the map. *)
Definition plot_Z_vs_vel_width (vel met : list R) : outcome contour_axes :=
  (let ind2 := where_ (map (fun m => Rltb 1e-4 m) met) in
   met <- take met ind2 ;;
   vel <- take vel ind2 ;;
   _plot_2d_contour vel met 10 true true)%py.

(** [a/b] on two arrays of one length; a zero in [b] divides by zero. *)
Definition divide (a b : list R) : outcome (list R) :=
  if existsb (fun w => Reqb w 0) b then NonFinite
  else Ok (map (fun p => fst p / snd p) (combine a b)).

(** A float that has to be finite to go on. *)
Definition finite1 (x : xfloat) : outcome R :=
  match x with
  | Fin r => Ok r
  | _ => NonFinite
  end.

(** [plot_virial_vel_vs_vel_width], lines 421-432, given what [vel_width]
    and [get_filt] return; the printed median is left out.  [vel] and
    [virial] are selected by the same two index arrays, so they have one
    length. *)
Definition plot_virial_vel_vs_vel_width (self : Spectra) (vel_width : list R)
    (ind : index) (dm : R) (color ls label : string)
    : plt (list R * list R) :=
  (let halos := find_nearest_halo self in
   halos_f <- lift (getitem halos ind) ;;
   let f_ind := where_ (map (fun h => negb (h =? -1)%Z) halos_f) in
   vel_f <- lift (getitem vel_width ind) ;;
   vel <- lift (take vel_f f_ind) ;;
   halos_ff <- lift (take halos_f f_ind) ;;
   let virial := map (fun v => v + 0.1) (virial_vel self halos_ff) in
   vvvir <- lift (divide vel virial) ;;
   lo <- lift (Np.min vvvir) ;;
   llo <- lift (finite1 (log10 lo)) ;;
   hi <- lift (Np.max vvvir) ;;
   lhi <- lift (finite1 (log10 hi)) ;;
   e <- lift (arange llo lhi dm) ;;
   let m_table := map pow10 e in
   let mbin := bin_centers m_table in
   logs <- lift (finite (map log10 vvvir)) ;;
   bins <- lift (finite (map log10 m_table)) ;;
   pdf <- lift (histogram_density logs bins) ;;
   _ <- draw {| logx := true; xdata := mbin; ydata := pdf;
                color := color; ls := ls; label := label |} ;;
   ret (mbin, pdf))%plt.

(** ** Vocabulary of the statements *)

(** Bin [i] of the edges [bins], as numpy documents it: closed below, open
    above, except the last bin, which is closed on both sides. *)
Definition in_bin (bins : list R) (i : nat) (x : R) : bool :=
  Rleb (nth i bins 0) x &&
  (if (S (S i) =? length bins)%nat
   then Rleb x (nth (S i) bins 0)
   else Rltb x (nth (S i) bins 0)).

(** The number of entries of [a] that satisfy [p]. *)
Definition count (p : R -> bool) (a : list R) : Z :=
  Z.of_nat (length (filter p a)).

(** Edges that grow strictly, as section 3 wants them. *)
Fixpoint increasing (bins : list R) : Prop :=
  match bins with
  | x :: ((y :: _) as t) => x < y /\ increasing t
  | _ => True
  end.

(** The entries of [a] that a mask keeps. *)
Fixpoint compress {A : Type} (mask : list bool) (a : list A) : list A :=
  match mask, a with
  | b :: m, x :: t => if b then x :: compress m t else compress m t
  | _, _ => []
  end.

(** A curve of fractions over the bins of [env]: one value per bin, each
    a count between zero and the reference count of the bin, divided by
    the denominator that [vhist] holds for the bin. *)
Definition fraction_curve (env : breakdown_env) (c : curve) : Prop :=
  length (ydata c) = length (vhist0 env) /\
  forall j : nat, (j < length (vhist0 env))%nat ->
    exists n : Z,
      (0 <= n <= nth j (vhist0 env) 0)%Z /\
      nth j (ydata c) 0 = IZR n / (1 * IZR (nth j (vhist env) 0%Z)).

(** What [breakdown_setup] guarantees about the variables it leaves. *)
Definition env_ok (env : breakdown_env) : Prop :=
  exists mask : list bool,
    ind env = where_ mask /\
    length mask = length (array_f env) /\
    length (virial env) = length (compress mask (array_f env)) /\
    monotone (v_table env) = true /\
    vhist0 env
    = map (fun i => count (in_bin (v_table env) i) (array_f env))
        (seq 0 (length (v_table env) - 1)) /\
    vhist env = zero_subst (vhist0 env) /\
    vbin env = bin_centers (v_table env).

(** The sum of the counts of a histogram. *)
Definition total (h : list Z) : Z := fold_right Z.add 0%Z h.

(** The values of the sightlines with a halo, those of them whose virial
    velocity lies in a range, and the fractions of the range. *)
Definition halo_values (env : breakdown_env) : list R :=
  match take (array_f env) (ind env) with
  | Ok l => l
  | _ => []
  end.

Definition range_values (env : breakdown_env) (lo hi : R) : list R :=
  compress (map (fun v => Rltb lo v && Rltb v hi) (virial env)) (halo_values env).

Definition range_fractions (env : breakdown_env) (lo hi : R) : list R :=
  fraction
    (map (fun i => count (in_bin (v_table env) i) (range_values env lo hi))
       (seq 0 (length (v_table env) - 1)))
    (vhist env).

(** The curve that [_plot_breakdown] draws for range [k]. *)
Definition range_curve (env : breakdown_env) (low high : list R)
    (labels : list string) (log : bool) (k : nat) : curve :=
  {| logx := log; xdata := vbin env;
     ydata := range_fractions env (nth k low 0) (nth k high 0);
     color := nth k colors ""%string; ls := nth k lss ""%string;
     label := nth k labels ""%string |}.

(** The area under a density curve: the sum of its values times the
    widths of the bins. *)
Definition area (ys ws : list R) : R :=
  fold_right Rplus 0 (map (fun p => fst p * snd p) (combine ys ws)).

(** One axis of the correlation map: one more edge than bins, growing
    strictly from at most the smallest to at least the largest value, and
    a centre inside every bin, in the linear domain of the axis. *)
Definition axis_covers (vals : list R) (nbins : nat) (edges centres : list R)
    (log : bool) : Prop :=
  length edges = S nbins /\ length centres = nbins /\ increasing edges /\
  (forall v : R, In v vals -> nth 0 edges 0 <= v <= nth nbins edges 0) /\
  forall i : nat, (i < nbins)%nat ->
    if log
    then pow10 (nth i edges 0) < nth i centres 0 < pow10 (nth (S i) edges 0)
    else nth i edges 0 < nth i centres 0 < nth (S i) edges 0.

(** ** Sample data for the examples

    Two sightlines with the halos 1 and 2, whose virial velocities are 50
    and 100, and a specification of four ranges. *)
Definition two_halos : Spectra :=
  {| find_nearest_halo := [1%Z; 2%Z]; sub_virial := fun h => 50 * IZR h |}.

Definition four_low : list R := [0; 60; 120; 200].
Definition four_high : list R := [60; 120; 200; 900].
Definition four_labels : list string := ["a"; "b"; "c"; "d"]%string.

(** * Properties *)

Lemma Rltb_true (x y : R) : x < y -> Rltb x y = true.
Proof. intros H. unfold Rltb. destruct (Rlt_dec x y); [reflexivity | contradiction]. Qed.

Lemma Rltb_false (x y : R) : ~ x < y -> Rltb x y = false.
Proof. intros H. unfold Rltb. destruct (Rlt_dec x y); [contradiction | reflexivity]. Qed.

Lemma Rleb_true (x y : R) : x <= y -> Rleb x y = true.
Proof. intros H. unfold Rleb. destruct (Rle_dec x y); [reflexivity | contradiction]. Qed.

Lemma Rleb_false (x y : R) : ~ x <= y -> Rleb x y = false.
Proof. intros H. unfold Rleb. destruct (Rle_dec x y); [contradiction | reflexivity]. Qed.

Lemma Rltb_spec (x y : R) : Rltb x y = true <-> x < y.
Proof. unfold Rltb. destruct (Rlt_dec x y); split; intros; auto; discriminate. Qed.

Lemma Rleb_spec (x y : R) : Rleb x y = true <-> x <= y.
Proof. unfold Rleb. destruct (Rle_dec x y); split; intros; auto; discriminate. Qed.

(** Decide every comparison of concrete reals in the goal. *)
Ltac rcmp :=
  repeat match goal with
    | |- context [Rltb ?a ?b] =>
        first [ rewrite (Rltb_true a b) by lra | rewrite (Rltb_false a b) by lra ]
    | |- context [Rleb ?a ?b] =>
        first [ rewrite (Rleb_true a b) by lra | rewrite (Rleb_false a b) by lra ]
    end.

(** ** np.where *)

Lemma where_from_In (mask : list bool) (k i : nat) :
  In i (where_from k mask) <->
  (k <= i)%nat /\ nth_error mask (i - k) = Some true.
Proof.
  revert k. induction mask as [| b m IH]; intros k; simpl.
  - split; [tauto |]. intros [_ H]. destruct (i - k)%nat; discriminate.
  - assert (Hstep : In i (where_from (S k) m) <->
                    (k < i)%nat /\ nth_error (b :: m) (i - k) = Some true).
    { rewrite IH. split; intros [Hle Hn]; split; try lia.
      - replace (i - k)%nat with (S (i - S k)) by lia. exact Hn.
      - replace (i - k)%nat with (S (i - S k)) in Hn by lia. exact Hn. }
    destruct b; simpl; rewrite Hstep.
    + split.
      * intros [-> | [Hlt Hn]]; [| split; [lia | exact Hn]].
        split; [lia |]. now rewrite Nat.sub_diag.
      * intros [Hle Hn]. destruct (Nat.eq_dec k i) as [-> | Hne]; [now left |].
        right. split; [lia | exact Hn].
    + split.
      * intros [Hlt Hn]. split; [lia | exact Hn].
      * intros [Hle Hn]. destruct (Nat.eq_dec k i) as [-> | Hne].
        -- rewrite Nat.sub_diag in Hn. discriminate.
        -- split; [lia | exact Hn].
Qed.

Lemma where_In (mask : list bool) (i : nat) :
  In i (where_ mask) <-> nth_error mask i = Some true.
Proof.
  unfold where_. rewrite where_from_In, Nat.sub_0_r.
  split; [tauto | intros H; split; [lia | exact H]].
Qed.



(** ** np.sort and searchsorted *)

Lemma filter_insert_length (p : R -> bool) (x : R) (l : list R) :
  length (filter p (insert x l)) = length (filter p (x :: l)).
Proof.
  induction l as [| y t IH]; [reflexivity |].
  simpl insert. destruct (Rleb x y); [reflexivity |].
  simpl in *. destruct (p y), (p x); simpl in *; lia.
Qed.

Lemma filter_sort_length (p : R -> bool) (a : list R) :
  length (filter p (sort a)) = length (filter p a).
Proof.
  induction a as [| x t IH]; [reflexivity |].
  unfold sort in *. simpl fold_right. rewrite filter_insert_length.
  simpl. destruct (p x); simpl; lia.
Qed.

Lemma insert_In (x y : R) (l : list R) : In y (insert x l) -> y = x \/ In y l.
Proof.
  induction l as [| z t IH]; simpl.
  - intros [H | []]. now left.
  - destruct (Rleb x z); simpl.
    + intros [H | [H | H]]; auto.
    + intros [H | H]; auto. destruct (IH H); auto.
Qed.

Lemma insert_sorted (x : R) (l : list R) :
  StronglySorted Rle l -> StronglySorted Rle (insert x l).
Proof.
  induction 1 as [| y t Hs IH Hall]; simpl.
  - constructor; constructor.
  - destruct (Rleb x y) eqn:E.
    + apply Rleb_spec in E. constructor.
      * constructor; assumption.
      * constructor; [exact E |].
        rewrite Forall_forall in *. intros z Hz. specialize (Hall z Hz). lra.
    + assert (Hyx : y <= x).
      { destruct (Rle_dec x y) as [H | H].
        - apply Rleb_spec in H. congruence.
        - lra. }
      constructor; [exact IH |].
      rewrite Forall_forall in *. intros z Hz.
      destruct (insert_In _ _ _ Hz) as [-> | Hz']; auto.
Qed.

Lemma sort_sorted (a : list R) : StronglySorted Rle (sort a).
Proof.
  induction a as [| x t IH]; [constructor |].
  apply insert_sorted. exact IH.
Qed.

Lemma searchsorted_left_count (sa : list R) (v : R) :
  StronglySorted Rle sa ->
  searchsorted_left sa v = length (filter (fun x => Rltb x v) sa).
Proof.
  induction 1 as [| x t Hs IH Hall]; [reflexivity |].
  simpl. destruct (Rltb x v) eqn:E; simpl; [now rewrite IH |].
  assert (Hxv : ~ x < v) by (intros H; apply Rltb_spec in H; congruence).
  clear IH Hs. induction Hall as [| y l Hy Hl IHl]; [reflexivity |].
  simpl. rewrite (Rltb_false y v) by lra. exact IHl.
Qed.

Lemma searchsorted_right_count (sa : list R) (v : R) :
  StronglySorted Rle sa ->
  searchsorted_right sa v = length (filter (fun x => Rleb x v) sa).
Proof.
  induction 1 as [| x t Hs IH Hall]; [reflexivity |].
  simpl. destruct (Rleb x v) eqn:E; simpl; [now rewrite IH |].
  assert (Hxv : ~ x <= v) by (intros H; apply Rleb_spec in H; congruence).
  clear IH Hs. induction Hall as [| y l Hy Hl IHl]; [reflexivity |].
  simpl. rewrite (Rleb_false y v) by lra. exact IHl.
Qed.

Lemma searchsorted_left_sort (a : list R) (v : R) :
  Z.of_nat (searchsorted_left (sort a) v) = count (fun x => Rltb x v) a.
Proof.
  unfold count.
  now rewrite searchsorted_left_count, filter_sort_length by apply sort_sorted.
Qed.

Lemma searchsorted_right_sort (a : list R) (v : R) :
  Z.of_nat (searchsorted_right (sort a) v) = count (fun x => Rleb x v) a.
Proof.
  unfold count.
  now rewrite searchsorted_right_count, filter_sort_length by apply sort_sorted.
Qed.

(** Between two edges in order, the cumulative counts differ by the
    number of values in between. *)
Lemma count_between_lt (a : list R) (lo hi : R) :
  lo <= hi ->
  (count (fun x => Rltb x hi) a - count (fun x => Rltb x lo) a)%Z
  = count (fun x => Rleb lo x && Rltb x hi) a.
Proof.
  intros Hle. unfold count.
  induction a as [| x t IH]; [reflexivity |].
  cbn [filter].
  destruct (Rlt_dec x lo) as [H1 | H1]; destruct (Rlt_dec x hi) as [H2 | H2];
    try lra.
  - rewrite (Rltb_true x hi), (Rltb_true x lo), (Rleb_false lo x) by lra.
    cbn [andb length]. lia.
  - rewrite (Rltb_true x hi), (Rltb_false x lo), (Rleb_true lo x) by lra.
    cbn [andb length]. lia.
  - rewrite (Rltb_false x hi), (Rltb_false x lo), (Rleb_true lo x) by lra.
    cbn [andb length]. lia.
Qed.

Lemma count_between_le (a : list R) (lo hi : R) :
  lo <= hi ->
  (count (fun x => Rleb x hi) a - count (fun x => Rltb x lo) a)%Z
  = count (fun x => Rleb lo x && Rleb x hi) a.
Proof.
  intros Hle. unfold count.
  induction a as [| x t IH]; [reflexivity |].
  cbn [filter].
  destruct (Rlt_dec x lo) as [H1 | H1]; destruct (Rle_dec x hi) as [H2 | H2];
    try lra.
  - rewrite (Rleb_true x hi), (Rltb_true x lo), (Rleb_false lo x) by lra.
    cbn [andb length]. lia.
  - rewrite (Rleb_true x hi), (Rltb_false x lo), (Rleb_true lo x) by lra.
    cbn [andb length]. lia.
  - rewrite (Rleb_false x hi), (Rltb_false x lo), (Rleb_true lo x) by lra.
    cbn [andb length]. lia.
Qed.

(** ** np.histogram *)

Lemma in_bin_shift (e : R) (t : list R) (i : nat) (x : R) :
  in_bin (e :: t) (S i) x = in_bin t i x.
Proof. reflexivity. Qed.

Lemma monotone_cons (x y : R) (t : list R) :
  monotone (x :: y :: t) = true -> x <= y /\ monotone (y :: t) = true.
Proof.
  cbn [monotone]. intros H. apply andb_true_iff in H as [H1 H2].
  split; [| exact H2].
  apply negb_true_iff in H1.
  destruct (Rlt_dec y x) as [H | H]; [| lra].
  apply Rltb_spec in H. congruence.
Qed.

Lemma cumulative_counts (a bins : list R) :
  monotone bins = true ->
  diff (search_sorted_inclusive (sort a) bins)
  = map (fun i => count (in_bin bins i) a) (seq 0 (length bins - 1)).
Proof.
  induction bins as [| e0 t IH]; [reflexivity |].
  destruct t as [| e1 r]; [reflexivity |].
  intros Hm. apply monotone_cons in Hm as [Hle Hm].
  specialize (IH Hm).
  replace (length (e0 :: e1 :: r) - 1)%nat with (S (length (e1 :: r) - 1))
    by (simpl; lia).
  cbn [seq map]. rewrite <- seq_shift, map_map.
  rewrite (map_ext _ (fun i => count (in_bin (e1 :: r) i) a))
    by (intros i; reflexivity).
  rewrite <- IH.
  destruct r as [| e2 r'].
  - cbn [search_sorted_inclusive diff].
    rewrite searchsorted_left_sort, searchsorted_right_sort.
    rewrite count_between_le by exact Hle. reflexivity.
  - cbn [search_sorted_inclusive diff].
    rewrite !searchsorted_left_sort.
    rewrite count_between_lt by exact Hle. reflexivity.
Qed.

Lemma histogram_counts (a bins : list R) :
  monotone bins = true ->
  histogram a bins
  = Ok (map (fun i => count (in_bin bins i) a) (seq 0 (length bins - 1))).
Proof.
  intros Hm. unfold histogram. rewrite Hm. f_equal.
  now apply cumulative_counts.
Qed.

Lemma increasing_monotone (bins : list R) :
  increasing bins -> monotone bins = true.
Proof.
  induction bins as [| x t IH]; [reflexivity |].
  destruct t as [| y r]; [reflexivity |].
  intros [Hlt Hinc]. cbn [monotone].
  rewrite (Rltb_false y x) by lra. simpl. exact (IH Hinc).
Qed.

Lemma increasing_step (bins : list R) (i : nat) :
  increasing bins -> (S i < length bins)%nat ->
  nth i bins 0 < nth (S i) bins 0.
Proof.
  revert i. induction bins as [| x t IH]; intros i Hinc Hlen; [simpl in Hlen; lia |].
  destruct t as [| y r]; [simpl in Hlen; lia |].
  destruct Hinc as [Hlt Hinc].
  destruct i as [| i]; [exact Hlt |].
  apply (IH i Hinc). simpl in *. lia.
Qed.

Lemma increasing_nth (bins : list R) (i j : nat) :
  increasing bins -> (i < j)%nat -> (j < length bins)%nat ->
  nth i bins 0 < nth j bins 0.
Proof.
  intros Hinc Hij. induction Hij as [| j Hij IH]; intros Hlen.
  - now apply increasing_step.
  - pose proof (increasing_step bins j Hinc Hlen).
    assert (nth i bins 0 < nth j bins 0) by (apply IH; lia). lra.
Qed.

Lemma increasing_nth_le (bins : list R) (i j : nat) :
  increasing bins -> (i <= j)%nat -> (j < length bins)%nat ->
  nth i bins 0 <= nth j bins 0.
Proof.
  intros Hinc Hij Hlen. destruct (Nat.eq_dec i j) as [-> | Hne]; [lra |].
  apply Rlt_le, increasing_nth; auto; lia.
Qed.

Lemma in_bin_spec (bins : list R) (i : nat) (x : R) :
  in_bin bins i x = true <->
  nth i bins 0 <= x /\
  (x < nth (S i) bins 0 \/ (S (S i) = length bins /\ x = nth (S i) bins 0)).
Proof.
  unfold in_bin. rewrite andb_true_iff, Rleb_spec.
  destruct (Nat.eqb_spec (S (S i)) (length bins)) as [E | E].
  - rewrite Rleb_spec. split; intros [H1 H2]; split; auto.
    + destruct (Req_dec_T x (nth (S i) bins 0)); [right; auto | left; lra].
    + destruct H2 as [H2 | [_ H2]]; lra.
  - rewrite Rltb_spec. split; intros [H1 H2]; split; auto.
    destruct H2 as [H2 | [H2 _]]; [exact H2 | contradiction].
Qed.

(** C5, as amended: over strictly growing edges [np.histogram] never
    raises and counts, for every bin, the values from its lower edge up to
    but not including its upper edge, the last bin taking its upper edge
    too.  So a value equal to an internal edge is counted in the bin it
    opens and in no other, a value equal to the last edge is counted in
    the last bin, and a value below the first or above the last edge is
    counted nowhere. *)
Theorem histogram_half_open_last_closed (a bins : list R) :
  increasing bins ->
  histogram a bins
  = Ok (map (fun i => count (in_bin bins i) a) (seq 0 (length bins - 1)))
  /\ (forall k i : nat,
        (0 < k)%nat -> (S k < length bins)%nat -> (S i < length bins)%nat ->
        (in_bin bins i (nth k bins 0) = true <-> i = k))
  /\ (forall i : nat,
        (S i < length bins)%nat ->
        (in_bin bins i (nth (length bins - 1) bins 0) = true
         <-> S (S i) = length bins))
  /\ (forall (x : R) (i : nat),
        (S i < length bins)%nat ->
        x < nth 0 bins 0 \/ nth (length bins - 1) bins 0 < x ->
        in_bin bins i x = false).
Proof.
  intros Hinc. split; [| split; [| split]].
  - apply histogram_counts, increasing_monotone, Hinc.
  - intros k i Hk Hkl Hil. rewrite in_bin_spec. split.
    + intros [Hlo Hhi].
      destruct (Nat.lt_trichotomy i k) as [Hlt | [Heq | Hgt]]; [| exact Heq |].
      * exfalso.
        pose proof (increasing_nth_le bins (S i) k Hinc ltac:(lia) ltac:(lia)).
        destruct Hhi as [Hhi | [Hlast _]]; [lra | lia].
      * exfalso.
        pose proof (increasing_nth bins k i Hinc Hgt ltac:(lia)). lra.
    + intros ->. split; [lra |]. left. now apply increasing_step.
  - intros i Hil. rewrite in_bin_spec. split.
    + intros [Hlo Hhi].
      destruct (Nat.eq_dec (S (S i)) (length bins)) as [E | E]; [exact E |].
      exfalso.
      pose proof (increasing_nth_le bins (S i) (length bins - 1) Hinc
                    ltac:(lia) ltac:(lia)).
      destruct Hhi as [Hhi | [Hlast _]]; [lra | lia].
    + intros E. replace (length bins - 1)%nat with (S i) by lia.
      split; [| right; split; [exact E | reflexivity]].
      apply Rlt_le, increasing_step; auto.
  - intros x i Hil Hout.
    destruct (in_bin bins i x) eqn:E; [| reflexivity]. exfalso.
    apply in_bin_spec in E as [Hlo Hhi].
    pose proof (increasing_nth_le bins 0 i Hinc ltac:(lia) ltac:(lia)).
    pose proof (increasing_nth_le bins (S i) (length bins - 1) Hinc
                  ltac:(lia) ltac:(lia)).
    destruct Hout as [Hout | Hout]; [lra |].
    destruct Hhi as [Hhi | [_ Hhi]]; lra.
Qed.

Lemma histogram_half_open_last_closed_witness :
  increasing [1; 2; 3] /\
  histogram [1; 2; 2; 3] [1; 2; 3]
  = Ok (map (fun i => count (in_bin [1; 2; 3] i) [1; 2; 2; 3])
          (seq 0 (length [1; 2; 3] - 1))).
Proof.
  assert (H : increasing [1; 2; 3]) by (simpl; repeat split; lra).
  split; [exact H |].
  exact (proj1 (histogram_half_open_last_closed [1; 2; 2; 3] [1; 2; 3] H)).
Defined.

(** C5 fails as stated: 2 is the last of the edges [1, 2], it lies outside
    [1, 2), and it is counted in the last bin. *)
Lemma histogram_counts_last_edge :
  ~ (1 <= 2 < 2) /\ histogram [2] [1; 2] = Ok [1%Z].
Proof.
  split; [lra |].
  rewrite histogram_counts by (simpl; rcmp; reflexivity).
  unfold count, in_bin. simpl. rcmp. reflexivity.
Qed.

(** ** Bin construction *)

(** Settle every [Rmin] and [Rmax] of concrete reals in the goal. *)
Ltac rminmax :=
  repeat match goal with
    | |- context [Rmin ?a ?b] =>
        first [ rewrite (Rmin_left a b) by lra | rewrite (Rmin_right a b) by lra ]
    | |- context [Rmax ?a ?b] =>
        first [ rewrite (Rmax_left a b) by lra | rewrite (Rmax_right a b) by lra ]
    end.

Lemma arange_length (start stop step : R) (n : Z) :
  step <> 0 ->
  IZR n - 1 < (stop - start) / step <= IZR n ->
  arange start stop step
  = Ok (map (fun i => start + INR i * step) (seq 0 (Z.to_nat n))).
Proof.
  intros Hstep Hn. unfold arange.
  destruct (Req_dec_T step 0) as [E | _]; [contradiction |].
  now rewrite (Zceil_eq n) by exact Hn.
Qed.

Lemma arange_empty (c step : R) : step <> 0 -> arange c c step = Ok [].
Proof.
  intros Hstep. rewrite (arange_length c c step 0 Hstep); [reflexivity |].
  replace ((c - c) / step) with 0 by (field; exact Hstep). simpl. lra.
Qed.

Lemma fold_left_Rmin_const (c : R) (t : list R) :
  Forall (eq c) t -> fold_left Rmin t c = c.
Proof.
  induction 1 as [| x l Hx Hl IH]; [reflexivity |].
  simpl. subst x. rewrite Rmin_left by lra. exact IH.
Qed.

Lemma fold_left_Rmax_const (c : R) (t : list R) :
  Forall (eq c) t -> fold_left Rmax t c = c.
Proof.
  induction 1 as [| x l Hx Hl IH]; [reflexivity |].
  simpl. subst x. rewrite Rmax_left by lra. exact IH.
Qed.

Lemma log10_pos (x : R) : 0 < x -> log10 x = Fin (ln x / ln 10).
Proof. intros H. unfold log10. destruct (Rlt_dec 0 x); [reflexivity | contradiction]. Qed.

Lemma finite_log10_const (c : R) (t : list R) :
  0 < c -> Forall (eq c) t ->
  exists l, finite (map log10 t) = Ok l /\ Forall (eq (ln c / ln 10)) l.
Proof.
  intros Hc. induction 1 as [| x l Hx Hl [l' [E Hl']]].
  - exists []. split; [reflexivity | constructor].
  - subst x. exists (ln c / ln 10 :: l'). simpl.
    rewrite (log10_pos c Hc), E. split; [reflexivity |].
    constructor; [reflexivity | exact Hl'].
Qed.

Lemma scenario1_edges : make_v_table false [1; 1; 2; 2; 3; 3; 3] 1 = Ok [1; 2].
Proof.
  unfold make_v_table, Np.min, Np.max. simpl. rminmax.
  rewrite (arange_length 1 3 1 2) by (simpl; lra).
  simpl. replace (1 + 0 * 1) with 1 by lra. replace (1 + 1 * 1) with 2 by lra.
  reflexivity.
Qed.

Lemma scenario1_counts : histogram [1; 1; 2; 2; 3; 3; 3] [1; 2] = Ok [4%Z].
Proof.
  rewrite histogram_counts by (simpl; rcmp; reflexivity).
  unfold count, in_bin. simpl. rcmp. reflexivity.
Qed.

(** C4, as amended: for the values [1,1,2,2,3,3,3] and linear bins of
    width 1 the edges are [1, 2]; they make the single bin [1, 2], closed
    on both sides, which counts the four values 1, 1, 2, 2; the three
    values 3 fall outside the edges and are dropped. *)
Theorem scenario1_edges_and_counts :
  make_v_table false [1; 1; 2; 2; 3; 3; 3] 1 = Ok [1; 2] /\
  bin_centers [1; 2] = [3 / 2] /\
  histogram [1; 1; 2; 2; 3; 3; 3] [1; 2] = Ok [4%Z].
Proof.
  split; [exact scenario1_edges | split; [| exact scenario1_counts]].
  unfold bin_centers. simpl. apply f_equal2; [lra | reflexivity].
Qed.

(** C4 fails as stated: the edges are not [1, 2, 3], and the histogram
    has one count, not three. *)
Lemma scenario1_not_three_bins :
  make_v_table false [1; 1; 2; 2; 3; 3; 3] 1 <> Ok [1; 2; 3] /\
  histogram [1; 1; 2; 2; 3; 3; 3] [1; 2] <> Ok [2%Z; 2%Z; 3%Z].
Proof.
  rewrite scenario1_edges, scenario1_counts.
  split; intros H; discriminate H.
Qed.

(** ** Index arrays *)

Lemma skipn_nth_error {A : Type} (a : list A) (k : nat) (x : A) :
  nth_error a k = Some x -> skipn k a = x :: skipn (S k) a.
Proof.
  revert k. induction a as [| y t IH]; intros [| k] H; try discriminate.
  - simpl in H. injection H as ->. reflexivity.
  - simpl in H. apply IH in H. exact H.
Qed.

Lemma take_where_from {A : Type} (a : list A) (mask : list bool) (k : nat) :
  (k + length mask <= length a)%nat ->
  take a (where_from k mask) = Ok (compress mask (skipn k a)).
Proof.
  revert k. induction mask as [| b m IH]; intros k Hlen; [reflexivity |].
  simpl in Hlen.
  destruct (nth_error a k) as [x |] eqn:Hx;
    [| apply nth_error_None in Hx; lia].
  rewrite (skipn_nth_error a k x Hx). simpl where_from.
  assert (Hrec := IH (S k) ltac:(lia)).
  destruct b; simpl.
  - unfold subscript. rewrite Hx. simpl. rewrite Hrec. reflexivity.
  - exact Hrec.
Qed.

Lemma take_where {A : Type} (a : list A) (mask : list bool) :
  (length mask <= length a)%nat ->
  take a (where_ mask) = Ok (compress mask a).
Proof. intros H. unfold where_. now rewrite take_where_from. Qed.

Lemma take_length {A : Type} (a : list A) (idx : list nat) (l : list A) :
  take a idx = Ok l -> length l = length idx.
Proof.
  revert l. induction idx as [| i r IH]; intros l; simpl.
  - intros H. injection H as <-. reflexivity.
  - destruct (subscript a i); simpl; try discriminate.
    destruct (take a r); simpl; try discriminate.
    intros H. injection H as <-. simpl. f_equal. now apply IH.
Qed.

(** On the same index array, two arrays give selections of one length. *)
Lemma getitem_same_length {A B : Type} (a : list A) (b : list B) (ix : index)
    (la : list A) (lb : list B) :
  getitem a ix = Ok la -> getitem b ix = Ok lb -> length la = length lb.
Proof.
  destruct ix as [m | i]; simpl.
  - destruct (length m =? length a)%nat; [| discriminate].
    destruct (length m =? length b)%nat; [| discriminate].
    intros Ha Hb. apply take_length in Ha, Hb. congruence.
  - intros Ha Hb. apply take_length in Ha, Hb. congruence.
Qed.

(** ** Degenerate inputs of the bin construction *)

Lemma make_v_table_empty (log : bool) (dv : R) :
  make_v_table log [] dv = Raise ValueError.
Proof. destruct log; reflexivity. Qed.

Lemma make_v_table_constant (c dv : R) (t : list R) :
  dv <> 0 -> Forall (eq c) t ->
  make_v_table false (c :: t) dv = Ok [] /\
  (0 < c -> make_v_table true (c :: t) dv = Ok []).
Proof.
  intros Hdv Hall. split.
  - unfold make_v_table, Np.min, Np.max. simpl.
    rewrite fold_left_Rmin_const, fold_left_Rmax_const by exact Hall.
    now apply arange_empty.
  - intros Hc. unfold make_v_table.
    destruct (finite_log10_const c t Hc Hall) as [l [E Hl]].
    simpl. rewrite (log10_pos c Hc), E. simpl.
    rewrite fold_left_Rmin_const, fold_left_Rmax_const by exact Hl.
    rewrite arange_empty by exact Hdv. reflexivity.
Qed.

Lemma plot_breakdown_nothing_selected (self : Spectra) (array : list R)
    (filt : index) (halo_f : list Z) (low high : list R)
    (labels : list string) (dv : R) (log : bool) (fig : list curve) :
  getitem (find_nearest_halo self) filt = Ok halo_f ->
  getitem array filt = Ok [] ->
  _plot_breakdown self array filt low high labels dv log fig
  = (fig, Raise ValueError).
Proof.
  intros Hh Ha. unfold _plot_breakdown, pbind, lift, breakdown_setup.
  rewrite Hh. simpl.
  rewrite take_where by (rewrite length_map; lia). simpl.
  rewrite Ha. simpl. rewrite make_v_table_empty. reflexivity.
Qed.

(** Logarithmic bins over an array that starts with a value that is not
    positive: [np.log10] gives [-inf] or [nan], which goes into [np.min],
    [np.max] and [np.arange]. *)
Lemma make_v_table_log_nonpositive (c dv : R) (t : list R) :
  c <= 0 ->
  (c = 0 -> log10 c = NegInf) /\ (c < 0 -> log10 c = NaN) /\
  make_v_table true (c :: t) dv = NonFinite.
Proof.
  intros Hc. unfold make_v_table, log10. cbn [map finite].
  destruct (Rlt_dec 0 c) as [H | _]; [lra |].
  destruct (Req_dec_T c 0) as [E | E].
  - repeat split; auto. intros H. lra.
  - repeat split; auto. intros H. contradiction.
Qed.

(** C7, as amended: bin construction over an empty array fails, whatever
    the bin width, with the [ValueError] of [np.min], which reaches the
    caller of [_plot_breakdown] before anything is drawn.  Over a constant
    array it does not fail: with a step other than zero the edges of
    linear bins, and so the bin centres, come out empty, and so do those
    of logarithmic bins when the constant is positive.  When the constant
    is zero or negative, logarithmic bins get [-inf] or [nan] from
    [np.log10], and that is what [np.arange] is given as its bounds. *)
Theorem bins_of_degenerate_arrays :
  (forall (log : bool) (dv : R), make_v_table log [] dv = Raise ValueError)
  /\ (forall self array filt halo_f low high labels dv log fig,
        getitem (find_nearest_halo self) filt = Ok halo_f ->
        getitem array filt = Ok [] ->
        _plot_breakdown self array filt low high labels dv log fig
        = (fig, Raise ValueError))
  /\ (forall (c dv : R) (t : list R),
        dv <> 0 -> Forall (eq c) t ->
        make_v_table false (c :: t) dv = Ok []
        /\ (0 < c -> make_v_table true (c :: t) dv = Ok []))
  /\ (forall (c dv : R) (t : list R),
        c <= 0 -> Forall (eq c) t ->
        (c = 0 -> log10 c = NegInf) /\ (c < 0 -> log10 c = NaN) /\
        make_v_table true (c :: t) dv = NonFinite)
  /\ bin_centers [] = [].
Proof.
  split; [| split; [| split; [| split]]].
  - intros log dv. apply make_v_table_empty.
  - intros. eapply plot_breakdown_nothing_selected; eassumption.
  - intros c dv t Hdv Hall. now apply make_v_table_constant.
  - intros c dv t Hc _. now apply make_v_table_log_nonpositive.
  - reflexivity.
Qed.

Lemma bins_of_degenerate_arrays_witness :
  make_v_table false [5; 5] 1 = Ok [] /\
  make_v_table true [5; 5] 1 = Ok [] /\
  make_v_table true [0; 0] 1 = NonFinite /\
  make_v_table false [] 1 = Raise ValueError.
Proof.
  assert (Hdv : 1 <> 0) by lra.
  assert (H5 : Forall (eq 5) [5]) by (constructor; [reflexivity | constructor]).
  assert (H0 : Forall (eq 0) [0]) by (constructor; [reflexivity | constructor]).
  destruct bins_of_degenerate_arrays as (He & _ & Hc & Hn & _).
  destruct (Hc 5 1 [5] Hdv H5) as [Hlin Hlog].
  destruct (Hn 0 1 [0] ltac:(lra) H0) as (_ & _ & Hnf).
  split; [exact Hlin |]. split; [apply Hlog; lra |].
  split; [exact Hnf | exact (He false 1)].
Defined.

(** C7 fails as stated: over the constant array [5, 5], whose minimum
    equals its maximum, bin construction returns, with no edges, instead
    of failing. *)
Lemma constant_array_gives_no_error :
  Np.min [5; 5] = Ok 5 /\ Np.max [5; 5] = Ok 5 /\
  make_v_table false [5; 5] 1 = Ok [].
Proof.
  split; [| split].
  - unfold Np.min. simpl. rminmax. reflexivity.
  - unfold Np.max. simpl. rminmax. reflexivity.
  - apply make_v_table_constant; [lra |].
    constructor; [reflexivity | constructor].
Qed.

(** ** The conditional breakdown *)

Lemma compress_length {A : Type} (mask : list bool) (a : list A) :
  (length mask <= length a)%nat ->
  length (compress mask a) = length (filter (fun b : bool => b) mask).
Proof.
  revert a. induction mask as [| b m IH]; intros a Hlen; [reflexivity |].
  destruct a as [| x t]; [simpl in Hlen; lia |].
  simpl in *. destruct b; simpl; rewrite IH by lia; reflexivity.
Qed.

Lemma count_compress_le (p : R -> bool) (mask : list bool) (a : list R) :
  (count p (compress mask a) <= count p a)%Z.
Proof.
  unfold count. apply inj_le.
  revert a. induction mask as [| b m IH]; intros a; [simpl; lia |].
  destruct a as [| x t]; [simpl; lia |].
  simpl. specialize (IH t). destruct b; simpl; destruct (p x); simpl; lia.
Qed.

Lemma count_nonneg (p : R -> bool) (a : list R) : (0 <= count p a)%Z.
Proof. unfold count. lia. Qed.

Lemma histogram_monotone (a bins : list R) (h : list Z) :
  histogram a bins = Ok h -> monotone bins = true.
Proof.
  unfold histogram. destruct (monotone bins); [reflexivity | discriminate].
Qed.

Lemma setup_env_ok (self : Spectra) (array : list R) (filt : index) (dv : R)
    (log : bool) (env : breakdown_env) :
  breakdown_setup self array filt dv log = Ok env -> env_ok env.
Proof.
  unfold breakdown_setup.
  destruct (getitem (find_nearest_halo self) filt) as [halo_f | |] eqn:Hh;
    simpl; try discriminate.
  rewrite take_where by (rewrite length_map; lia). simpl.
  destruct (getitem array filt) as [arr | |] eqn:Ha; simpl; try discriminate.
  destruct (make_v_table log arr dv) as [vt | |] eqn:Hv; simpl; try discriminate.
  destruct (histogram arr vt) as [h | |] eqn:Hist; simpl; try discriminate.
  intros H. injection H as <-.
  pose proof (getitem_same_length _ _ _ _ _ Hh Ha) as Hlen.
  pose proof (histogram_monotone _ _ _ Hist) as Hm.
  exists (map (fun h => (0 <? h)%Z) halo_f). simpl.
  repeat split; auto.
  - rewrite length_map. exact Hlen.
  - unfold virial_vel. rewrite length_map.
    rewrite !compress_length by (rewrite length_map; lia). reflexivity.
  - rewrite histogram_counts in Hist by exact Hm. congruence.
Qed.

(** The per-range selection always succeeds and is a part of the
    filtered array. *)
Lemma range_subset (env : breakdown_env) (lo hi : R) :
  env_ok env ->
  exists halo_vals subset : list R,
    take (array_f env) (ind env) = Ok halo_vals /\
    take halo_vals (range_select (virial env) lo hi) = Ok subset /\
    forall p : R -> bool, (count p subset <= count p (array_f env))%Z.
Proof.
  intros (mask & Hind & Hlen & Hvir & _).
  exists (compress mask (array_f env)).
  exists (compress (map (fun v => Rltb lo v && Rltb v hi) (virial env))
            (compress mask (array_f env))).
  split; [| split].
  - rewrite Hind. apply take_where. lia.
  - unfold range_select. apply take_where. rewrite length_map. lia.
  - intros p. etransitivity; apply count_compress_le.
Qed.

(** One turn of the loop: a style out of range raises before the curve is
    drawn; otherwise the curve of the range is added to the figure. *)
Lemma breakdown_range_run (env : breakdown_env) (low high : list R)
    (labels : list string) (log : bool) (ii : nat) (lo hi : R)
    (fig : list curve) :
  env_ok env ->
  subscript low ii = Ok lo -> subscript high ii = Ok hi ->
  exists subset : list R,
    (forall p : R -> bool, (count p subset <= count p (array_f env))%Z) /\
    breakdown_range env low high labels log ii fig
    = match subscript colors ii, subscript lss ii, subscript labels ii with
      | Ok col, Ok sty, Ok lab =>
          (fig ++ [{| logx := log; xdata := vbin env;
                      ydata := fraction
                                 (map (fun i => count (in_bin (v_table env) i) subset)
                                    (seq 0 (length (v_table env) - 1)))
                                 (vhist env);
                      color := col; ls := sty; label := lab |}], Ok tt)
      | Ok _, Ok _, Raise e => (fig, Raise e)
      | Ok _, Ok _, NonFinite => (fig, NonFinite)
      | Ok _, Raise e, _ => (fig, Raise e)
      | Ok _, NonFinite, _ => (fig, NonFinite)
      | Raise e, _, _ => (fig, Raise e)
      | NonFinite, _, _ => (fig, NonFinite)
      end.
Proof.
  intros Hok Hlo Hhi.
  destruct (range_subset env lo hi Hok) as (hv & subset & Hhv & Hsub & Hle).
  exists subset. split; [exact Hle |].
  destruct Hok as (mask & _ & _ & _ & Hm & _).
  unfold breakdown_range, pbind, lift. rewrite Hlo, Hhi, Hhv, Hsub.
  rewrite histogram_counts by exact Hm.
  destruct (subscript colors ii), (subscript lss ii), (subscript labels ii);
    reflexivity.
Qed.

Lemma nth_map_seq {A : Type} (f : nat -> A) (n j : nat) (d : A) :
  (j < n)%nat -> nth j (map f (seq 0 n)) d = f j.
Proof.
  intros Hj. rewrite (nth_indep _ d (f 0%nat)) by (rewrite length_map, length_seq; exact Hj).
  rewrite map_nth, seq_nth by exact Hj. reflexivity.
Qed.

Lemma nth_map_in {A B : Type} (f : A -> B) (l : list A) (j : nat) (d : B) (d' : A) :
  (j < length l)%nat -> nth j (map f l) d = f (nth j l d').
Proof.
  revert j. induction l as [| x t IH]; intros j Hj; [simpl in Hj; lia |].
  destruct j as [| j]; [reflexivity |]. simpl. apply IH. simpl in Hj. lia.
Qed.

Lemma combine_map_seq {A B : Type} (f : nat -> A) (g : nat -> B) (l : list nat) :
  combine (map f l) (map g l) = map (fun i => (f i, g i)) l.
Proof. induction l as [| x t IH]; [reflexivity |]. simpl. now rewrite IH. Qed.

Lemma zero_subst_ge_1 (c : Z) :
  (0 <= c)%Z -> (1 <= (if (c =? 0)%Z then 1 else c))%Z.
Proof. intros H. destruct (Z.eqb_spec c 0); lia. Qed.

Lemma range_curve_is_fraction_curve (env : breakdown_env) (subset : list R)
    (log : bool) (col sty lab : string) :
  env_ok env ->
  (forall p : R -> bool, (count p subset <= count p (array_f env))%Z) ->
  fraction_curve env
    {| logx := log; xdata := vbin env;
       ydata := fraction
                  (map (fun i => count (in_bin (v_table env) i) subset)
                     (seq 0 (length (v_table env) - 1)))
                  (vhist env);
       color := col; ls := sty; label := lab |}.
Proof.
  intros (mask & _ & _ & _ & _ & H0 & Hsub & _) Hle.
  unfold fraction_curve. cbn [ydata].
  rewrite Hsub, H0. unfold zero_subst, fraction.
  rewrite map_map, combine_map_seq, map_map, !length_map, length_seq.
  split; [reflexivity |].
  intros j Hj. rewrite !nth_map_seq by exact Hj. cbn [fst snd].
  exists (count (in_bin (v_table env) j) subset).
  split; [| reflexivity].
  split; [apply count_nonneg | apply Hle].
Qed.

(** What a fraction curve amounts to, bin by bin. *)
Lemma fraction_curve_bounds (env : breakdown_env) (c : curve) (j : nat) :
  vhist env = zero_subst (vhist0 env) ->
  fraction_curve env c ->
  (j < length (vhist0 env))%nat ->
  (1 <= nth j (vhist env) 0)%Z /\
  0 <= nth j (ydata c) 0 <= 1 /\
  (nth j (vhist0 env) 0%Z = 0%Z -> nth j (ydata c) 0 = 0).
Proof.
  intros Hsub [Hlen Hfrac] Hj.
  destruct (Hfrac j Hj) as (n & [Hn0 Hn1] & Hy).
  assert (Hd : nth j (vhist env) 0%Z
               = if (nth j (vhist0 env) 0 =? 0)%Z then 1%Z else nth j (vhist0 env) 0%Z).
  { rewrite Hsub. unfold zero_subst. now rewrite (nth_map_in _ _ _ _ 0%Z). }
  set (t := nth j (vhist0 env) 0%Z) in *.
  set (d := nth j (vhist env) 0%Z) in *.
  assert (Hd1 : (1 <= d)%Z) by (rewrite Hd; apply zero_subst_ge_1; lia).
  assert (Hnd : (n <= d)%Z) by (rewrite Hd; destruct (Z.eqb_spec t 0); lia).
  assert (HdR : 1 <= IZR d) by (apply IZR_le in Hd1; exact Hd1).
  assert (HnR : 0 <= IZR n) by (apply IZR_le in Hn0; exact Hn0).
  assert (HndR : IZR n <= IZR d) by (apply IZR_le; exact Hnd).
  split; [exact Hd1 |]. rewrite Hy. split.
  - split.
    + apply Rmult_le_pos; [lra |]. apply Rlt_le, Rinv_0_lt_compat. lra.
    + apply (Rmult_le_reg_r (1 * IZR d)); [lra |].
      unfold Rdiv. rewrite Rmult_assoc, Rinv_l by lra. lra.
  - intros Ht. assert (n = 0%Z) by lia. subst n. unfold Rdiv. lra.
Qed.

Lemma for_each_draws (P : curve -> Prop) (body : nat -> plt unit) :
  (forall ii fig, exists new, fst (body ii fig) = fig ++ new /\ Forall P new) ->
  forall iis fig,
    exists new, fst (for_each body iis fig) = fig ++ new /\ Forall P new.
Proof.
  intros Hbody. induction iis as [| ii r IH]; intros fig.
  - exists []. simpl. rewrite app_nil_r. split; [reflexivity | constructor].
  - cbn [for_each]. unfold pbind.
    destruct (Hbody ii fig) as (new1 & E1 & P1).
    destruct (body ii fig) as [fig1 [[] | e |]]; simpl in E1; subst fig1.
    + destruct (IH (fig ++ new1)) as (new2 & E2 & P2).
      exists (new1 ++ new2). rewrite E2, app_assoc.
      split; [reflexivity | apply Forall_app; split; assumption].
    + exists new1. split; [reflexivity | exact P1].
    + exists new1. split; [reflexivity | exact P1].
Qed.

Lemma breakdown_range_draws (env : breakdown_env) (low high : list R)
    (labels : list string) (log : bool) (ii : nat) (fig : list curve) :
  env_ok env ->
  exists new,
    fst (breakdown_range env low high labels log ii fig) = fig ++ new /\
    Forall (fraction_curve env) new.
Proof.
  intros Hok.
  assert (Hnone : exists new : list curve,
             fig = fig ++ new /\ Forall (fraction_curve env) new)
    by (exists []; rewrite app_nil_r; split; [reflexivity | constructor]).
  destruct (subscript low ii) as [lo | e |] eqn:Hlo;
    [| unfold breakdown_range, pbind, lift; rewrite Hlo; exact Hnone ..].
  destruct (subscript high ii) as [hi | e |] eqn:Hhi;
    [| unfold breakdown_range, pbind, lift; rewrite Hlo, Hhi; exact Hnone ..].
  destruct (breakdown_range_run env low high labels log ii lo hi fig Hok Hlo Hhi)
    as (subset & Hle & ->).
  destruct (subscript colors ii), (subscript lss ii), (subscript labels ii);
    try exact Hnone.
  eexists. split; [reflexivity |].
  constructor; [| constructor].
  now apply range_curve_is_fraction_curve.
Qed.

(** C2: whatever [_plot_breakdown] is called with, every curve it adds to
    the figure is a curve of well-defined fractions: the denominators are
    the reference histogram with each zero count replaced by 1, so none of
    them is zero; every numerator is a count of a part of the filtered
    array, at most the reference count of its bin; so every fraction lies
    between 0 and 1, and is 0 in every bin whose reference count was 0. *)
Theorem breakdown_fractions_well_defined (self : Spectra) (array : list R)
    (filt : index) (low high : list R) (labels : list string) (dv : R)
    (log : bool) (fig : list curve) :
  exists new : list curve,
    fst (_plot_breakdown self array filt low high labels dv log fig)
    = fig ++ new /\
    forall c : curve, In c new ->
      exists env : breakdown_env,
        breakdown_setup self array filt dv log = Ok env /\
        histogram (array_f env) (v_table env) = Ok (vhist0 env) /\
        vhist env = zero_subst (vhist0 env) /\
        fraction_curve env c /\
        forall j : nat, (j < length (vhist0 env))%nat ->
          (1 <= nth j (vhist env) 0)%Z /\
          0 <= nth j (ydata c) 0 <= 1 /\
          (nth j (vhist0 env) 0%Z = 0%Z -> nth j (ydata c) 0 = 0).
Proof.
  unfold _plot_breakdown, pbind, lift.
  destruct (breakdown_setup self array filt dv log) as [env | e |] eqn:Hsetup;
    [| exists []; rewrite app_nil_r; split; [reflexivity | intros c []] ..].
  pose proof (setup_env_ok _ _ _ _ _ _ Hsetup) as Hok.
  destruct (for_each_draws (fraction_curve env)
              (breakdown_range env low high labels log)
              (fun ii f => breakdown_range_draws env low high labels log ii f Hok)
              (seq 0 (length low)) fig) as (new & E & Hall).
  exists new. split; [exact E |].
  intros c Hc. exists env.
  rewrite Forall_forall in Hall. specialize (Hall c Hc).
  destruct Hok as (mask & _ & _ & _ & Hm & H0 & Hsub & _).
  repeat split; auto.
  - rewrite histogram_counts by exact Hm. now rewrite H0.
  - apply Hall.
  - apply Hall.
  - now apply (fraction_curve_bounds env c j Hsub Hall).
  - now apply (fraction_curve_bounds env c j Hsub Hall).
  - now apply (fraction_curve_bounds env c j Hsub Hall).
  - now apply (fraction_curve_bounds env c j Hsub Hall).
Qed.

(** ** The fixed style tables *)

Lemma for_each_cons (body : nat -> plt unit) (ii : nat) (r : list nat)
    (fig : list curve) :
  for_each body (ii :: r) fig
  = match body ii fig with
    | (fig', Ok _) => for_each body r fig'
    | (fig', Raise e) => (fig', Raise e)
    | (fig', NonFinite) => (fig', NonFinite)
    end.
Proof. reflexivity. Qed.

Lemma breakdown_range_styled (env : breakdown_env) (low high : list R)
    (labels : list string) (log : bool) (ii : nat) (lo hi : R)
    (col sty lab : string) (fig : list curve) :
  env_ok env ->
  subscript low ii = Ok lo -> subscript high ii = Ok hi ->
  subscript colors ii = Ok col -> subscript lss ii = Ok sty ->
  subscript labels ii = Ok lab ->
  exists c : curve,
    breakdown_range env low high labels log ii fig = (fig ++ [c], Ok tt) /\
    fraction_curve env c /\ color c = col /\ ls c = sty /\ label c = lab.
Proof.
  intros Hok Hlo Hhi Hc Hs Hl.
  destruct (breakdown_range_run env low high labels log ii lo hi fig Hok Hlo Hhi)
    as (subset & Hle & E).
  rewrite Hc, Hs, Hl in E. eexists. split; [exact E |].
  split; [now apply range_curve_is_fraction_curve | auto].
Qed.

Lemma breakdown_range_unstyled (env : breakdown_env) (low high : list R)
    (labels : list string) (log : bool) (ii : nat) (lo hi : R)
    (fig : list curve) :
  env_ok env ->
  subscript low ii = Ok lo -> subscript high ii = Ok hi ->
  subscript colors ii = Raise IndexError ->
  breakdown_range env low high labels log ii fig = (fig, Raise IndexError).
Proof.
  intros Hok Hlo Hhi Hc.
  destruct (breakdown_range_run env low high labels log ii lo hi fig Hok Hlo Hhi)
    as (subset & Hle & E).
  rewrite Hc in E. exact E.
Qed.

(** C10, as amended: when the filtering, the bin construction and the
    reference histogram of a call succeed and its specification lists four
    or more ranges, the curves of the first three ranges are drawn, in
    red, purple and cyan, and the call then fails with the [IndexError] of
    [colors[3]]: the style tables have three entries. *)
Theorem breakdown_at_most_three_ranges (self : Spectra) (array : list R)
    (filt : index) (low high : list R) (labels : list string) (dv : R)
    (log : bool) (env : breakdown_env) (fig : list curve) :
  breakdown_setup self array filt dv log = Ok env ->
  (4 <= length low)%nat ->
  length high = length low ->
  length labels = length low ->
  subscript colors 3 = Raise IndexError /\
  exists c0 c1 c2 : curve,
    _plot_breakdown self array filt low high labels dv log fig
    = (fig ++ [c0; c1; c2], Raise IndexError) /\
    Forall (fraction_curve env) [c0; c1; c2] /\
    map color [c0; c1; c2] = colors /\
    map ls [c0; c1; c2] = lss /\
    map label [c0; c1; c2] = firstn 3 labels.
Proof.
  intros Hsetup Hlow Hhigh Hlab. split; [reflexivity |].
  pose proof (setup_env_ok _ _ _ _ _ _ Hsetup) as Hok.
  destruct low as [| l0 [| l1 [| l2 [| l3 lr]]]]; simpl in Hlow; try lia.
  destruct high as [| h0 [| h1 [| h2 [| h3 hr]]]]; simpl in Hhigh; try lia.
  destruct labels as [| b0 [| b1 [| b2 [| b3 br]]]]; simpl in Hlab; try lia.
  set (low := l0 :: l1 :: l2 :: l3 :: lr).
  set (high := h0 :: h1 :: h2 :: h3 :: hr).
  set (labels := b0 :: b1 :: b2 :: b3 :: br).
  destruct (breakdown_range_styled env low high labels log 0 l0 h0
              "red" "--" b0 fig Hok) as (c0 & E0 & F0 & C0 & S0 & L0);
    try reflexivity.
  destruct (breakdown_range_styled env low high labels log 1 l1 h1
              "purple" ":" b1 (fig ++ [c0]) Hok) as (c1 & E1 & F1 & C1 & S1 & L1);
    try reflexivity.
  destruct (breakdown_range_styled env low high labels log 2 l2 h2
              "cyan" "-" b2 ((fig ++ [c0]) ++ [c1]) Hok)
    as (c2 & E2 & F2 & C2 & S2 & L2);
    try reflexivity.
  pose proof (breakdown_range_unstyled env low high labels log 3 l3 h3
                (((fig ++ [c0]) ++ [c1]) ++ [c2]) Hok
                eq_refl eq_refl eq_refl) as E3.
  exists c0, c1, c2. split; [| split; [| split; [| split]]].
  - unfold _plot_breakdown, pbind at 1, lift. rewrite Hsetup.
    change (seq 0 (length low)) with (0 :: 1 :: 2 :: 3 :: seq 4 (length lr))%nat.
    rewrite for_each_cons, E0, for_each_cons, E1, for_each_cons, E2,
      for_each_cons, E3.
    rewrite <- !app_assoc. reflexivity.
  - repeat (constructor; [assumption |]). constructor.
  - simpl. now rewrite C0, C1, C2.
  - simpl. now rewrite S0, S1, S2.
  - simpl. now rewrite L0, L1, L2.
Qed.

Lemma two_values_edges : make_v_table false [1; 3] 1 = Ok [1; 2].
Proof.
  unfold make_v_table, Np.min, Np.max. simpl. rminmax.
  rewrite (arange_length 1 3 1 2) by (simpl; lra).
  simpl. replace (1 + 0 * 1) with 1 by lra. replace (1 + 1 * 1) with 2 by lra.
  reflexivity.
Qed.

Lemma two_values_counts : histogram [1; 3] [1; 2] = Ok [1%Z].
Proof.
  rewrite histogram_counts by (simpl; rcmp; reflexivity).
  unfold count, in_bin. simpl. rcmp. reflexivity.
Qed.

Lemma two_halos_setup :
  exists env : breakdown_env,
    breakdown_setup two_halos [1; 3] (Ints [0; 1]%nat) 1 false = Ok env.
Proof.
  unfold breakdown_setup. cbn [getitem take subscript nth_error Py.bind
    find_nearest_halo two_halos].
  rewrite two_values_edges. cbn [Py.bind]. rewrite two_values_counts.
  cbn [Py.bind]. eexists. reflexivity.
Qed.

Lemma breakdown_at_most_three_ranges_witness :
  exists c0 c1 c2 : curve,
    _plot_breakdown two_halos [1; 3] (Ints [0; 1]%nat)
      four_low four_high four_labels 1 false []
    = ([c0; c1; c2], Raise IndexError).
Proof.
  destruct two_halos_setup as [env Hsetup].
  destruct (breakdown_at_most_three_ranges two_halos [1; 3] (Ints [0; 1]%nat)
              four_low four_high four_labels 1 false env [] Hsetup)
    as (_ & c0 & c1 & c2 & E & _).
  - simpl. lia.
  - reflexivity.
  - reflexivity.
  - exists c0, c1, c2. exact E.
Defined.

(** C10 fails as stated: a call with four ranges whose filter selects no
    sightline fails in the bin construction, with the [ValueError] of
    [np.min], and never comes to select a style. *)
Lemma four_ranges_empty_selection :
  (4 <= length four_low)%nat /\
  _plot_breakdown two_halos [1; 3] (Ints []) four_low four_high four_labels
    1 false []
  = ([], Raise ValueError) /\
  @Raise unit ValueError <> Raise IndexError.
Proof.
  split; [simpl; lia |]. split; [| discriminate].
  now apply (plot_breakdown_nothing_selected two_halos [1; 3] (Ints []) []).
Qed.

(** ** Decimal logarithms and powers *)

Lemma ln_10_pos : 0 < ln 10.
Proof. rewrite <- ln_1. apply ln_increasing; lra. Qed.

Lemma log10_pow (n : nat) : log10 (10 ^ n) = Fin (INR n).
Proof.
  assert (Hpos : 0 < 10 ^ n) by (apply pow_lt; lra).
  rewrite (log10_pos _ Hpos). f_equal.
  rewrite ln_pow by lra. field. pose proof ln_10_pos. lra.
Qed.

Lemma pow10_INR (n : nat) : pow10 (INR n) = 10 ^ n.
Proof. unfold pow10. apply Rpower_pow. lra. Qed.

(** Ten to the mean of two exponents is the geometric mean of the two
    powers. *)
Lemma pow10_mean (a b : R) :
  pow10 ((a + b) / 2) = sqrt (pow10 a * pow10 b).
Proof.
  unfold pow10. rewrite <- Rpower_plus.
  rewrite <- Rpower_sqrt by (unfold Rpower; apply exp_pos).
  rewrite Rpower_mult. f_equal; field.
Qed.

Lemma bin_centers_nth (v_table : list R) (i : nat) :
  (S i < length v_table)%nat ->
  nth i (bin_centers v_table) 0 = (nth i v_table 0 + nth (S i) v_table 0) / 2.
Proof.
  intros H. unfold bin_centers.
  apply (nth_map_seq (fun i => (nth i v_table 0 + nth (S i) v_table 0) / 2)). lia.
Qed.

Lemma edge_centers_nth (edges : list R) (i : nat) :
  (S i < length edges)%nat ->
  nth i (edge_centers edges) 0 = (nth (S i) edges 0 + nth i edges 0) / 2.
Proof.
  intros H. unfold edge_centers.
  apply (nth_map_seq (fun i => (nth (S i) edges 0 + nth i edges 0) / 2)). lia.
Qed.

Lemma edge_centers_length (edges : list R) :
  length (edge_centers edges) = (length edges - 1)%nat.
Proof. unfold edge_centers. now rewrite length_map, length_seq. Qed.

Lemma log_centers_nth (edges : list R) (i : nat) :
  (S i < length edges)%nat ->
  nth i (map pow10 (edge_centers edges)) 0
  = pow10 ((nth i edges 0 + nth (S i) edges 0) / 2).
Proof.
  intros H.
  rewrite (nth_map_in pow10 _ _ _ 0) by (rewrite edge_centers_length; lia).
  rewrite edge_centers_nth by exact H. f_equal. lra.
Qed.

Lemma make_v_table_log_edges (array : list R) (dv : R) (vt : list R) :
  make_v_table true array dv = Ok vt -> exists e, vt = map pow10 e.
Proof.
  unfold make_v_table.
  destruct (finite (map log10 array)) as [logs | |]; simpl; try discriminate.
  destruct (Np.min logs); simpl; try discriminate.
  destruct (Np.max logs); simpl; try discriminate.
  destruct (arange _ _ dv) as [e | |]; simpl; try discriminate.
  intros H. injection H as <-. now exists e.
Qed.

Lemma setup_vbin (self : Spectra) (array : list R) (filt : index) (dv : R)
    (log : bool) (env : breakdown_env) :
  breakdown_setup self array filt dv log = Ok env ->
  vbin env = bin_centers (v_table env) /\
  make_v_table log (array_f env) dv = Ok (v_table env).
Proof.
  unfold breakdown_setup.
  destruct (getitem (find_nearest_halo self) filt); simpl; try discriminate.
  destruct (take _ _); simpl; try discriminate.
  destruct (getitem array filt); simpl; try discriminate.
  destruct (make_v_table log _ dv) eqn:E; simpl; try discriminate.
  destruct (histogram _ _); simpl; try discriminate.
  intros H. injection H as <-. simpl. auto.
Qed.

Lemma contour_axes_run (xvals yvals : list R) (nbins : nat) (ylog xlog : bool)
    (ax : contour_axes) :
  _plot_2d_contour xvals yvals nbins ylog xlog = Ok ax ->
  xbins ax = (if xlog then map pow10 (edge_centers (xedges ax))
              else edge_centers (xedges ax)) /\
  ybins ax = (if ylog then map pow10 (edge_centers (yedges ax))
              else edge_centers (yedges ax)).
Proof.
  unfold _plot_2d_contour, contour_transform. cbn [Py.bind fst snd].
  destruct (finite (log_axis xlog xvals)); simpl; try discriminate.
  destruct (finite (log_axis ylog yvals)); simpl; try discriminate.
  destruct (histogram2d_edges _ nbins); simpl; try discriminate.
  destruct (histogram2d_edges _ nbins); simpl; try discriminate.
  intros H. injection H as <-. simpl. auto.
Qed.

(** C3, as amended: in [_plot_breakdown] every bin centre is the
    arithmetic mean of its two edges, for linear bins and for log-spaced
    bins alike: the log-spaced edges are powers of ten and are averaged as
    they are.  In [_plot_2d_contour] the centres of a logarithmic axis are
    obtained by averaging the two edges in the log domain and then
    re-exponentiating, which is the geometric mean of the two edges in the
    linear domain; the centres of a linear axis are arithmetic means. *)
Theorem bin_centres_by_domain (self : Spectra) (array : list R) (filt : index)
    (dv : R) (log : bool) (env : breakdown_env)
    (xvals yvals : list R) (nbins : nat) (ylog xlog : bool)
    (ax : contour_axes) :
  breakdown_setup self array filt dv log = Ok env ->
  _plot_2d_contour xvals yvals nbins ylog xlog = Ok ax ->
  (log = true -> exists e, v_table env = map pow10 e)
  /\ (forall i : nat, (S i < length (v_table env))%nat ->
        nth i (vbin env) 0
        = (nth i (v_table env) 0 + nth (S i) (v_table env) 0) / 2)
  /\ (forall i : nat, (S i < length (xedges ax))%nat ->
        nth i (xbins ax) 0
        = if xlog
          then pow10 ((nth i (xedges ax) 0 + nth (S i) (xedges ax) 0) / 2)
          else (nth i (xedges ax) 0 + nth (S i) (xedges ax) 0) / 2)
  /\ (forall i : nat, (S i < length (yedges ax))%nat ->
        nth i (ybins ax) 0
        = if ylog
          then pow10 ((nth i (yedges ax) 0 + nth (S i) (yedges ax) 0) / 2)
          else (nth i (yedges ax) 0 + nth (S i) (yedges ax) 0) / 2)
  /\ (forall a b : R, pow10 ((a + b) / 2) = sqrt (pow10 a * pow10 b)).
Proof.
  intros Hsetup Hcontour.
  destruct (setup_vbin _ _ _ _ _ _ Hsetup) as [Hvbin Hvt].
  destruct (contour_axes_run _ _ _ _ _ _ Hcontour) as [Hx Hy].
  split; [| split; [| split; [| split]]].
  - intros ->. eapply make_v_table_log_edges, Hvt.
  - intros i Hi. rewrite Hvbin. now apply bin_centers_nth.
  - intros i Hi. rewrite Hx. destruct xlog.
    + now apply log_centers_nth.
    + rewrite edge_centers_nth by exact Hi. lra.
  - intros i Hi. rewrite Hy. destruct ylog.
    + now apply log_centers_nth.
    + rewrite edge_centers_nth by exact Hi. lra.
  - apply pow10_mean.
Qed.

Lemma decade_edges : make_v_table true [1; 1000] 2 = Ok [1; 100].
Proof.
  unfold make_v_table. cbn [map].
  replace 1 with (10 ^ 0) at 1 by (simpl; lra).
  replace 1000 with (10 ^ 3) by (simpl; lra).
  rewrite !log10_pow. cbn [finite Py.bind Np.min Np.max fold_left].
  replace (INR 0) with 0 by (simpl; lra).
  replace (INR 3) with 3 by (simpl; lra).
  rminmax. cbn [Py.bind].
  rewrite (arange_length 0 3 2 2) by (simpl; lra).
  cbn [Py.bind Z.to_nat]. change (Pos.to_nat 2) with 2%nat. cbn [seq map].
  replace (0 + INR 0 * 2) with (INR 0) by (simpl; lra).
  replace (0 + INR 1 * 2) with (INR 2) by (simpl; lra).
  rewrite !pow10_INR.
  replace (10 ^ 0) with 1 by (simpl; lra).
  replace (10 ^ 2) with 100 by (simpl; lra).
  reflexivity.
Qed.

Lemma decade_counts : histogram [1; 1000] [1; 100] = Ok [1%Z].
Proof.
  rewrite histogram_counts by (simpl; rcmp; reflexivity).
  unfold count, in_bin. simpl. rcmp. reflexivity.
Qed.

Lemma decade_setup :
  exists env : breakdown_env,
    breakdown_setup two_halos [1; 1000] (Ints [0; 1]%nat) 2 true = Ok env /\
    v_table env = [1; 100] /\ vbin env = [101 / 2].
Proof.
  unfold breakdown_setup. cbn [getitem take subscript nth_error Py.bind
    find_nearest_halo two_halos].
  rewrite decade_edges. cbn [Py.bind]. rewrite decade_counts.
  cbn [Py.bind]. eexists. split; [reflexivity |]. cbn [v_table vbin].
  split; [reflexivity |].
  unfold bin_centers. simpl. apply f_equal2; [lra | reflexivity].
Qed.

Lemma decade_contour :
  exists ax : contour_axes,
    _plot_2d_contour [1; 1000] [1; 1000] 1 true true = Ok ax.
Proof.
  unfold _plot_2d_contour, contour_transform, log_axis. cbn [map Py.bind fst snd].
  rewrite (log10_pos 1), (log10_pos 1000) by lra.
  cbn [finite Py.bind histogram2d_edges]. eexists. reflexivity.
Qed.

Lemma bin_centres_by_domain_witness :
  exists env : breakdown_env,
    breakdown_setup two_halos [1; 1000] (Ints [0; 1]%nat) 2 true = Ok env /\
    forall i : nat, (S i < length (v_table env))%nat ->
      nth i (vbin env) 0
      = (nth i (v_table env) 0 + nth (S i) (v_table env) 0) / 2.
Proof.
  destruct decade_setup as (env & Hsetup & _).
  destruct decade_contour as (ax & Hcontour).
  exists env. split; [exact Hsetup |].
  exact (proj1 (proj2 (bin_centres_by_domain two_halos [1; 1000]
                         (Ints [0; 1]%nat) 2 true env
                         [1; 1000] [1; 1000] 1 true true ax Hsetup Hcontour))).
Defined.

(** C3 fails as stated: for the values 1 and 1000 and log-spaced bins of
    two decades the edges are 1 and 100; [_plot_breakdown] puts the bin
    centre at 101/2, while averaging the edges in the log domain and
    re-exponentiating gives 10. *)
Lemma log_bin_centre_is_arithmetic :
  exists env : breakdown_env,
    breakdown_setup two_halos [1; 1000] (Ints [0; 1]%nat) 2 true = Ok env /\
    v_table env = map pow10 [0; 2] /\
    vbin env = [101 / 2] /\
    map pow10 (bin_centers [0; 2]) = [10] /\
    101 / 2 <> 10.
Proof.
  destruct decade_setup as (env & Hsetup & Hvt & Hvbin).
  assert (H0 : pow10 0 = 1)
    by (change 0 with (INR 0); rewrite pow10_INR; simpl; lra).
  assert (H1 : pow10 1 = 10)
    by (change 1 with (INR 1) at 1; rewrite pow10_INR; simpl; lra).
  assert (H2 : pow10 2 = 100)
    by (replace 2 with (INR 2) by (simpl; lra); rewrite pow10_INR; simpl; lra).
  exists env. split; [exact Hsetup |]. split; [| split; [exact Hvbin | split]].
  - rewrite Hvt. simpl. now rewrite H0, H2.
  - unfold bin_centers. simpl. replace ((0 + 2) / 2) with 1 by lra.
    now rewrite H1.
  - lra.
Qed.

(** ** Logarithms of values that are not positive *)

Lemma log10_zero : log10 0 = NegInf.
Proof.
  unfold log10. destruct (Rlt_dec 0 0) as [H | _]; [lra |].
  destruct (Req_dec_T 0 0) as [_ | H]; [reflexivity | contradiction].
Qed.

Lemma log10_neg (x : R) : x < 0 -> log10 x = NaN.
Proof.
  intros Hx. unfold log10. destruct (Rlt_dec 0 x) as [H | _]; [lra |].
  destruct (Req_dec_T x 0) as [H | _]; [lra | reflexivity].
Qed.

Lemma log10_one : log10 1 = Fin 0.
Proof.
  rewrite log10_pos by lra. f_equal. rewrite ln_1. unfold Rdiv. apply Rmult_0_l.
Qed.

Lemma log10_nonpos_not_finite (x : R) :
  x <= 0 -> forall r : R, log10 x <> Fin r.
Proof.
  intros Hx r. destruct (Req_dec_T x 0) as [-> | Hne].
  - rewrite log10_zero. discriminate.
  - rewrite log10_neg by lra. discriminate.
Qed.

Lemma finite_log10_nonpos (vals : list R) :
  (exists x, In x vals /\ x <= 0) -> finite (map log10 vals) = NonFinite.
Proof.
  intros (x & Hin & Hx). induction vals as [| v t IH]; [destruct Hin |].
  simpl. destruct Hin as [-> | Hin].
  - pose proof (log10_nonpos_not_finite x Hx) as Hnf.
    destruct (log10 x) as [r | |]; [exfalso; now apply (Hnf r) | reflexivity ..].
  - destruct (log10 v); [| reflexivity ..]. now rewrite (IH Hin).
Qed.

Lemma finite_no_exception (a : list xfloat) (e : exn) : finite a <> Raise e.
Proof.
  induction a as [| x t IH]; simpl; [discriminate |].
  destruct x; try discriminate.
  destruct (finite t); simpl; try discriminate. exact IH.
Qed.

(** C6, as amended: a log10 transform of data with values that are not
    positive does not fail.  [np.log10] turns a zero into minus infinity
    and a negative value into NaN; [_plot_2d_contour] hands the transformed
    arrays, with these values in them, on to [np.histogram2d], and
    [kstest] hands its two samples on to [ks_2d_2samp]; the only error
    [kstest] itself can raise before that is the [IndexError] of its
    filter. *)
Theorem log_transform_keeps_going (ks_2d_2samp : sample -> sample -> outcome R)
    (ylog xlog : bool) (xvals yvals : list R) (nbins : nat)
    (metallicity vel_width : list R) (ind : index) (Zdata veldata : list R)
    (met vel : list R) :
  getitem metallicity ind = Ok met ->
  getitem vel_width ind = Ok vel ->
  log10 0 = NegInf
  /\ (forall x : R, x < 0 -> log10 x = NaN)
  /\ contour_transform ylog xlog xvals yvals
     = Ok (log_axis xlog xvals, log_axis ylog yvals)
  /\ (xlog = true -> (exists x, In x xvals /\ x <= 0) ->
      _plot_2d_contour xvals yvals nbins ylog xlog = NonFinite)
  /\ (ylog = true -> (exists y, In y yvals /\ y <= 0) ->
      _plot_2d_contour xvals yvals nbins ylog xlog = NonFinite)
  /\ kstest_samples metallicity vel_width ind Zdata veldata
     = Ok ((map log10 Zdata, map log10 veldata), (map log10 met, map log10 vel))
  /\ kstest ks_2d_2samp metallicity vel_width ind Zdata veldata
     = ks_2d_2samp (map log10 Zdata, map log10 veldata)
         (map log10 met, map log10 vel).
Proof.
  intros Hmet Hvel.
  assert (Hs : kstest_samples metallicity vel_width ind Zdata veldata
               = Ok ((map log10 Zdata, map log10 veldata),
                     (map log10 met, map log10 vel)))
    by (unfold kstest_samples; rewrite Hmet, Hvel; reflexivity).
  split; [exact log10_zero |]. split; [exact log10_neg |].
  split; [reflexivity |]. split; [| split; [| split]].
  - intros -> Hx. unfold _plot_2d_contour, contour_transform, log_axis.
    cbn [Py.bind fst snd]. now rewrite (finite_log10_nonpos xvals Hx).
  - intros -> Hy. unfold _plot_2d_contour, contour_transform.
    cbn [Py.bind fst snd]. unfold log_axis at 2.
    rewrite (finite_log10_nonpos yvals Hy).
    pose proof (finite_no_exception (log_axis xlog xvals)) as Hne.
    destruct (finite (log_axis xlog xvals)) as [l | e |];
      [reflexivity | now destruct (Hne e) | reflexivity].
  - exact Hs.
  - unfold kstest. rewrite Hs. reflexivity.
Qed.

Lemma log_transform_keeps_going_witness :
  kstest_samples [1; 0] [1; 1] (Ints [0%nat]) [0] [1]
  = Ok ((map log10 [0], map log10 [1]), (map log10 [1], map log10 [1])).
Proof.
  exact (proj1 (proj2 (proj2 (proj2 (proj2 (proj2
           (log_transform_keeps_going (fun _ _ => Ok 0) true true [1] [1] 1
              [1; 0] [1; 1] (Ints [0%nat]) [0] [1] [1] [1]
              eq_refl eq_refl))))))).
Defined.

(** C6 fails as stated: with a zero on the x axis and both transforms
    requested, the transform of [_plot_2d_contour] returns arrays with
    minus infinity in them; with a zero metallicity and a negative
    velocity width in the external data, [kstest] builds its samples with
    minus infinity and NaN in them.  Neither raises. *)
Lemma nonpositive_data_is_transformed :
  (exists x, In x [0] /\ x <= 0) /\
  contour_transform true true [0] [1] = Ok ([NegInf], [Fin 0]) /\
  kstest_samples [1] [1] (Ints [0%nat]) [0] [-1]
  = Ok (([NegInf], [NaN]), ([Fin 0], [Fin 0])).
Proof.
  split; [exists 0; split; [now left | lra] |].
  unfold contour_transform, kstest_samples, log_axis.
  cbn [getitem take subscript nth_error Py.bind map].
  rewrite log10_zero, log10_one, (log10_neg (-1)) by lra.
  split; reflexivity.
Qed.

(** ** Writes through the arrays of the accessors *)

Lemma nth_update_same {A : Type} (l : list A) (i : nat) (v d : A) :
  (i < length l)%nat -> nth i (update l i v) d = v.
Proof.
  revert i. induction l as [| x t IH]; intros i Hi; [simpl in Hi; lia |].
  destruct i as [| i]; [reflexivity |]. simpl. apply IH. simpl in Hi. lia.
Qed.

Lemma nth_update_other {A : Type} (l : list A) (i j : nat) (v d : A) :
  j <> i -> nth j (update l i v) d = nth j l d.
Proof.
  revert i j. induction l as [| x t IH]; intros i j Hne.
  - destruct i; reflexivity.
  - destruct i as [| i], j as [| j]; try reflexivity; [congruence |].
    simpl. apply IH. congruence.
Qed.

Lemma normalize_index_bound (n : nat) (i : Z) (k : nat) :
  normalize_index n i = Ok k -> (k < n)%nat.
Proof.
  unfold normalize_index.
  destruct ((0 <=? i) && (i <? Z.of_nat n))%Z eqn:E1.
  - apply andb_true_iff in E1 as [Ha Hb]. intros H. injection H as <-. lia.
  - destruct ((- Z.of_nat n <=? i) && (i <? 0))%Z eqn:E2; [| discriminate].
    apply andb_true_iff in E2 as [Ha Hb]. intros H. injection H as <-. lia.
Qed.

(** The first entry of [np.where(mask)[0]] is the first true position. *)
Lemma where_from_first (mask : list bool) (k i : nat) :
  nth_error (where_from k mask) 0 = Some i ->
  (k <= i)%nat /\ nth_error mask (i - k) = Some true /\
  forall j : nat, (j < i - k)%nat -> nth_error mask j = Some false.
Proof.
  revert k. induction mask as [| b m IH]; intros k H; [discriminate H |].
  cbn [where_from] in H. destruct b.
  - cbn [nth_error] in H. injection H as <-.
    rewrite Nat.sub_diag. split; [lia |]. split; [reflexivity |].
    intros j Hj. lia.
  - apply IH in H as (Hle & Ht & Hf).
    replace (i - k)%nat with (S (i - S k)) by lia.
    split; [lia |]. split; [exact Ht |].
    intros [| j] Hj; [reflexivity |]. cbn [nth_error]. apply Hf. lia.
Qed.

Lemma component_set (ax : nat) (x : R) (v : vec3) :
  component ax (set_component ax x v) = x.
Proof. destruct v as [[a b] c]. destruct ax as [| [| ax]]; reflexivity. Qed.


Lemma nth_error_update_same {A : Type} (l : list A) (i : nat) (a x : A) :
  nth_error l i = Some x -> nth_error (update l i a) i = Some a.
Proof.
  revert i. induction l as [| y t IH]; intros [| i] H; simpl in *;
    try discriminate; auto.
Qed.

Lemma Reqb_spec (x y : R) : Reqb x y = true <-> x = y.
Proof. unfold Reqb. destruct (Req_dec_T x y); split; intros; auto; discriminate. Qed.

(** Everything that a run of lines 157-164 goes through. *)
Lemma shifted_velocity_steps (axis : list Z) (density : list (list R))
    (velocity : list (list vec3)) (num : nat) (voff : R)
    (v' : list (list vec3)) :
  shifted_velocity axis density velocity num voff = Ok v' ->
  exists (den : list R) (peak : R) (imax : nat) (a : Z) (ax : nat)
         (row : list vec3) (vmax : R),
    subscript density num = Ok den /\ Np.max den = Ok peak /\
    subscript (where_ (map (fun d => Reqb d peak) den)) 0 = Ok imax /\
    subscript axis num = Ok a /\ normalize_index 3 (a - 1) = Ok ax /\
    nth_error velocity num = Some row /\
    nth_error (map (component ax) row) imax = Some vmax /\
    v' = update velocity num
           (map (fun v => set_component ax (component ax v - (vmax - voff)) v)
              row).
Proof.
  unfold shifted_velocity.
  destruct (subscript density num) as [den | |] eqn:Hden; simpl; try discriminate.
  destruct (Np.max den) as [peak | |] eqn:Hpeak; simpl; try discriminate.
  destruct (subscript (where_ _) 0) as [imax | |] eqn:Hi; simpl; try discriminate.
  destruct (subscript axis num) as [a | |] eqn:Ha; simpl; try discriminate.
  destruct (normalize_index 3 (a - 1)) as [ax | |] eqn:Hax; simpl; try discriminate.
  unfold subscript at 1.
  destruct (nth_error velocity num) as [row |] eqn:Hrow; simpl; try discriminate.
  unfold subscript at 1.
  destruct (nth_error (map (component ax) row) imax) as [vmax |] eqn:Hv; simpl;
    try discriminate.
  intros H. injection H as <-.
  exists den, peak, imax, a, ax, row, vmax. repeat split; auto.
Qed.

(** The same in the words of the method: [imax] is the first pixel at
    which the density of sightline [num] is largest, [ax] is the component
    [axis[num]-1], and [vel[imax]-voff] is taken off that component of
    every pixel of the sightline. *)
Lemma shifted_velocity_spec (axis : list Z) (density : list (list R))
    (velocity : list (list vec3)) (num : nat) (voff : R)
    (v' : list (list vec3)) :
  shifted_velocity axis density velocity num voff = Ok v' ->
  exists (den : list R) (peak : R) (imax : nat) (a : Z) (ax : nat)
         (row : list vec3) (vmax : vec3),
    nth_error density num = Some den /\ Np.max den = Ok peak /\
    nth_error den imax = Some peak /\
    (forall (j : nat) (d : R),
        (j < imax)%nat -> nth_error den j = Some d -> d <> peak) /\
    nth_error axis num = Some a /\ normalize_index 3 (a - 1) = Ok ax /\
    nth_error velocity num = Some row /\ nth_error row imax = Some vmax /\
    v' = update velocity num
           (map (fun v => set_component ax
                            (component ax v - (component ax vmax - voff)) v)
              row).
Proof.
  intros Hrun.
  destruct (shifted_velocity_steps _ _ _ _ _ _ Hrun)
    as (den & peak & imax & a & ax & row & vmax
        & Hden & Hpeak & Himax & Ha & Hax & Hrow & Hvmax & ->).
  unfold subscript in Hden, Himax, Ha.
  destruct (nth_error density num) as [den' |] eqn:Ed; [| discriminate].
  injection Hden as ->.
  destruct (nth_error (where_ (map (fun d => Reqb d peak) den)) 0)
    as [i |] eqn:Ew; [| discriminate].
  injection Himax as ->.
  destruct (nth_error axis num) as [a' |] eqn:Ea; [| discriminate].
  injection Ha as ->.
  unfold where_ in Ew. apply where_from_first in Ew as (_ & Htrue & Hfalse).
  rewrite Nat.sub_0_r in Htrue, Hfalse.
  rewrite nth_error_map in Htrue, Hvmax.
  destruct (nth_error den imax) as [d0 |] eqn:Ed0; [| discriminate].
  destruct (nth_error row imax) as [r |] eqn:Er; [| discriminate].
  cbn [option_map] in Htrue, Hvmax.
  injection Htrue as Htrue. apply Reqb_spec in Htrue. subst d0.
  injection Hvmax as <-.
  exists den, peak, imax, a, ax, row, r.
  split; [reflexivity |]. split; [exact Hpeak |]. split; [exact Ed0 |].
  split.
  { intros j d Hj Hd Heq. specialize (Hfalse j Hj).
    rewrite nth_error_map, Hd in Hfalse. cbn [option_map] in Hfalse.
    injection Hfalse as Hfalse. apply Reqb_spec in Heq. congruence. }
  split; [reflexivity |]. split; [exact Hax |].
  split; [first [reflexivity | exact Hrow] |].
  split; [exact Er | reflexivity].
Qed.

(** C9, as amended: two operations write into an array that an accessor
    returned.  [plot_temp] overwrites with 0, in place, every entry below
    1e-6 of the density array; the temperature array and every other
    array stay as they were.  [plot_den_to_tau], when it gets as far as
    line 164, subtracts [vel[imax]-voff], in place, from the velocity
    component [axis[num]-1] of every pixel of sightline [num] in the
    velocity array, [imax] being the first pixel at which the density of
    that sightline is largest; the array is changed by it unless that
    velocity was [voff] already.  The density array and every other array
    stay as they were, and a call that raises before line 164 has written
    nothing. *)
Theorem accessor_arrays_written_in_place (h : heap) (temp den vel : ref)
    (axis : list Z) (num : nat) (voff : R) :
  (den < length (arrays2 h))%nat ->
  (vel < length (arrays3 h))%nat ->
  load2 (plot_temp_arrays temp den h) den
  = map (map (fun d => if Rltb d 1e-6 then 0 else d)) (load2 h den)
  /\ (forall r : ref, r <> den -> load2 (plot_temp_arrays temp den h) r = load2 h r)
  /\ arrays3 (plot_temp_arrays temp den h) = arrays3 h
  /\ arrays2 (fst (plot_den_to_tau_arrays axis den vel num voff h)) = arrays2 h
  /\ (forall r : ref, r <> vel ->
        load3 (fst (plot_den_to_tau_arrays axis den vel num voff h)) r = load3 h r)
  /\ (snd (plot_den_to_tau_arrays axis den vel num voff h) <> Ok tt ->
      fst (plot_den_to_tau_arrays axis den vel num voff h) = h)
  /\ (snd (plot_den_to_tau_arrays axis den vel num voff h) = Ok tt ->
      exists (row_den : list R) (peak : R) (imax : nat) (a : Z) (ax : nat)
             (row : list vec3) (vmax : vec3),
        nth_error (load2 h den) num = Some row_den /\
        Np.max row_den = Ok peak /\
        nth_error row_den imax = Some peak /\
        (forall (j : nat) (d : R),
            (j < imax)%nat -> nth_error row_den j = Some d -> d <> peak) /\
        nth_error axis num = Some a /\
        normalize_index 3 (a - 1) = Ok ax /\
        nth_error (load3 h vel) num = Some row /\
        nth_error row imax = Some vmax /\
        load3 (fst (plot_den_to_tau_arrays axis den vel num voff h)) vel
        = update (load3 h vel) num
            (map (fun v => set_component ax
                             (component ax v - (component ax vmax - voff)) v)
               row) /\
        (component ax vmax <> voff ->
         load3 (fst (plot_den_to_tau_arrays axis den vel num voff h)) vel
         <> load3 h vel)).
Proof.
  intros Hden Hvel.
  split; [| split; [| split]].
  - unfold plot_temp_arrays, load2, store2. cbn [arrays2].
    now apply nth_update_same.
  - intros r Hr. unfold plot_temp_arrays, load2, store2. cbn [arrays2].
    now apply nth_update_other.
  - reflexivity.
  - unfold plot_den_to_tau_arrays.
    destruct (shifted_velocity axis (load2 h den) (load3 h vel) num voff)
      as [v' | e |] eqn:Hrun; cbn [fst snd].
    + split; [reflexivity |]. split; [| split].
      * intros r Hr. unfold load3, store3. cbn [arrays3].
        now apply nth_update_other.
      * intros H. now destruct H.
      * intros _.
        destruct (shifted_velocity_spec _ _ _ _ _ _ Hrun)
          as (rd & peak & imax & a & ax & row & vmax & Hrd & Hpeak & Hat
              & Hfirst & Ha & Hax & Hrow & Hvmax & ->).
        set (f := fun v => set_component ax
                             (component ax v - (component ax vmax - voff)) v).
        assert (Hload : load3 (store3 h vel (update (load3 h vel) num (map f row))) vel
                        = update (load3 h vel) num (map f row)).
        { unfold load3 at 1, store3. cbn [arrays3].
          now apply nth_update_same. }
        exists rd, peak, imax, a, ax, row, vmax.
        split; [exact Hrd |]. split; [exact Hpeak |]. split; [exact Hat |].
        split; [exact Hfirst |]. split; [exact Ha |]. split; [exact Hax |].
        split; [exact Hrow |]. split; [exact Hvmax |].
        split; [exact Hload |].
        intros Hne Heq. rewrite Hload in Heq.
        assert (Hnew : nth_error (update (load3 h vel) num (map f row)) num
                       = Some (map f row))
          by (eapply nth_error_update_same, Hrow).
        rewrite Heq, Hrow in Hnew. injection Hnew as Hnew.
        assert (Hpix : nth_error (map f row) imax = Some (f vmax))
          by (rewrite nth_error_map, Hvmax; reflexivity).
        rewrite <- Hnew, Hvmax in Hpix. injection Hpix as Hpix.
        apply (f_equal (component ax)) in Hpix.
        unfold f in Hpix. rewrite component_set in Hpix. lra.
    + repeat split; auto. intros H. discriminate H.
    + repeat split; auto. intros H. discriminate H.
Qed.

Lemma Reqb_true (x y : R) : x = y -> Reqb x y = true.
Proof. intros H. unfold Reqb. destruct (Req_dec_T x y); [reflexivity | contradiction]. Qed.

Lemma Reqb_false (x y : R) : x <> y -> Reqb x y = false.
Proof. intros H. unfold Reqb. destruct (Req_dec_T x y); [contradiction | reflexivity]. Qed.

(** A run of lines 157-164 of [plot_den_to_tau] on one sightline of two
    pixels along the first axis: the density peaks in the second pixel,
    whose velocity 4 is taken off the first component of both pixels of
    the stored array. *)
Lemma plot_den_to_tau_shifts_velocity :
  plot_den_to_tau_arrays [1%Z] 0%nat 0%nat 0%nat 0
    {| arrays2 := [[[0; 5]]]; arrays3 := [[[(1, 2, 3); (4, 5, 6)]]] |}
  = ({| arrays2 := [[[0; 5]]];
        arrays3 := [[[(1 - (4 - 0), 2, 3); (4 - (4 - 0), 5, 6)]]] |}, Ok tt).
Proof.
  unfold plot_den_to_tau_arrays, shifted_velocity, load2, load3, Np.max.
  cbn [arrays2 arrays3 nth subscript nth_error Py.bind fold_left].
  rminmax. cbn [map].
  rewrite (Reqb_false 0 5), (Reqb_true 5 5) by lra.
  reflexivity.
Qed.

Lemma accessor_arrays_written_in_place_witness :
  load2 (plot_temp_arrays 1%nat 0%nat
           {| arrays2 := [[[1e-7; 5]]; [[1; 2]]];
              arrays3 := [[[(1, 2, 3); (4, 5, 6)]]] |})
        0%nat
  = map (map (fun d => if Rltb d 1e-6 then 0 else d)) [[1e-7; 5]]
  /\ load3 (fst (plot_den_to_tau_arrays [1%Z] 0%nat 0%nat 0%nat 0
                   {| arrays2 := [[[0; 5]]];
                      arrays3 := [[[(1, 2, 3); (4, 5, 6)]]] |})) 0%nat
     <> [[(1, 2, 3); (4, 5, 6)]].
Proof.
  split.
  - refine (proj1 (accessor_arrays_written_in_place
                     {| arrays2 := [[[1e-7; 5]]; [[1; 2]]];
                        arrays3 := [[[(1, 2, 3); (4, 5, 6)]]] |}
                     1%nat 0%nat 0%nat [1%Z] 0%nat 0 _ _)); simpl; lia.
  - destruct (accessor_arrays_written_in_place
                {| arrays2 := [[[0; 5]]];
                   arrays3 := [[[(1, 2, 3); (4, 5, 6)]]] |}
                0%nat 0%nat 0%nat [1%Z] 0%nat 0)
      as (_ & _ & _ & _ & _ & _ & Hshift); [simpl; lia | simpl; lia |].
    destruct Hshift
      as (rd & peak & imax & a & ax & row & vmax & Hrd & Hpeak & Hat
          & Hfirst & Ha & Hax & Hrow & Hvmax & _ & Hchanged).
    { rewrite plot_den_to_tau_shifts_velocity. reflexivity. }
    apply Hchanged.
    cbn in Hrd. injection Hrd as <-.
    cbn in Ha. injection Ha as <-.
    cbn in Hax. injection Hax as <-.
    cbn in Hrow. injection Hrow as <-.
    unfold Np.max in Hpeak. cbn [fold_left] in Hpeak.
    rewrite Rmax_right in Hpeak by lra. injection Hpeak as <-.
    destruct imax as [| [| imax]].
    + cbn in Hat. injection Hat as Hat. lra.
    + cbn in Hvmax. injection Hvmax as <-. cbn. lra.
    + destruct imax; discriminate Hat.
Defined.

(** C9 fails as stated: after [plot_temp] the density array that
    [get_density] returned holds 0 where it held 1e-7. *)
Lemma plot_temp_overwrites_density :
  load2 {| arrays2 := [[[1; 2]]; [[1e-7; 1]]]; arrays3 := [] |} 1%nat
  = [[1e-7; 1]] /\
  load2 (plot_temp_arrays 0%nat 1%nat
           {| arrays2 := [[[1; 2]]; [[1e-7; 1]]]; arrays3 := [] |}) 1%nat
  = [[0; 1]] /\
  [[1e-7; 1]] <> [[0; 1]].
Proof.
  split; [reflexivity |]. split.
  - unfold plot_temp_arrays, load2, store2. simpl. rcmp. reflexivity.
  - intros H. injection H as H. lra.
Qed.

(** ** plot_sep_frac *)

Lemma zero_subst_positive (h : list Z) :
  Forall (fun c => (0 <= c)%Z) h -> Forall (fun d => (1 <= d)%Z) (zero_subst h).
Proof.
  induction 1 as [| c t Hc Ht IH]; simpl; constructor; auto.
  now apply zero_subst_ge_1.
Qed.

Lemma histogram_nonneg (a bins : list R) (h : list Z) :
  histogram a bins = Ok h -> Forall (fun c => (0 <= c)%Z) h.
Proof.
  intros H. pose proof (histogram_monotone _ _ _ H) as Hm.
  rewrite histogram_counts in H by exact Hm. injection H as <-.
  apply Forall_forall. intros c Hc. apply in_map_iff in Hc as (i & <- & _).
  apply count_nonneg.
Qed.

(** The curve of [plot_sep_frac] divides by the histogram of the filtered
    velocity widths with every zero count replaced by 1. *)
Lemma plot_sep_frac_denominators (vels : list R) (ind sep : index) (dv : R)
    (color ls label : string) (fig fig' : list curve) :
  plot_sep_frac vels ind sep dv color ls label fig = (fig', Ok tt) ->
  exists (c : curve) (hist1 hist2 : list Z),
    fig' = fig ++ [c] /\
    ydata c = fraction hist2 (zero_subst hist1) /\
    Forall (fun d => (1 <= d)%Z) (zero_subst hist1).
Proof.
  unfold plot_sep_frac, pbind, lift, draw.
  destruct (arange 1 3 dv) as [e | |]; try discriminate.
  destruct (getitem vels ind) as [vels_f | |]; try discriminate.
  destruct (histogram vels_f _) as [hist1 | |] eqn:H1; try discriminate.
  destruct (getitem vels_f sep) as [vels_sep | |]; try discriminate.
  destruct (histogram vels_sep _) as [hist2 | |]; try discriminate.
  intros H. injection H as <-.
  eexists _, hist1, hist2. split; [reflexivity |]. split; [reflexivity |].
  apply zero_subst_positive. eapply histogram_nonneg, H1.
Qed.

(** * Further properties *)

(** ** Totals of a histogram *)

Lemma last_indep {A : Type} (l : list A) (d d' : A) :
  l <> [] -> last l d = last l d'.
Proof.
  induction l as [| x t IH]; [congruence |]. intros _.
  destruct t as [| y r]; [reflexivity |].
  change (last (x :: y :: r) d) with (last (y :: r) d).
  change (last (x :: y :: r) d') with (last (y :: r) d').
  apply IH. discriminate.
Qed.

Lemma diff_total (x : Z) (c : list Z) :
  total (diff (x :: c)) = (last (x :: c) x - x)%Z.
Proof.
  revert x. induction c as [| y t IH]; intros x; [simpl; lia |].
  change (diff (x :: y :: t)) with ((y - x)%Z :: diff (y :: t)).
  unfold total in *. cbn [fold_right]. rewrite IH.
  change (last (x :: y :: t) x) with (last (y :: t) x).
  rewrite (last_indep (y :: t) x y) by discriminate. lia.
Qed.

Lemma search_sorted_inclusive_last (sa : list R) (e : R) (t : list R) :
  last (search_sorted_inclusive sa (e :: t)) 0%Z
  = Z.of_nat (searchsorted_right sa (last (e :: t) 0)).
Proof.
  revert e. induction t as [| e1 r IH]; intros e; [reflexivity |].
  change (search_sorted_inclusive sa (e :: e1 :: r))
    with (Z.of_nat (searchsorted_left sa e) :: search_sorted_inclusive sa (e1 :: r)).
  change (last (e :: e1 :: r) 0) with (last (e1 :: r) 0).
  rewrite <- IH.
  destruct (search_sorted_inclusive sa (e1 :: r)) eqn:E; [| reflexivity].
  destruct r; discriminate E.
Qed.

Lemma monotone_first_last (e : R) (t : list R) :
  monotone (e :: t) = true -> e <= last (e :: t) 0.
Proof.
  revert e. induction t as [| e1 r IH]; intros e Hm; [simpl; lra |].
  apply monotone_cons in Hm as [Hle Hm].
  change (last (e :: e1 :: r) 0) with (last (e1 :: r) 0).
  specialize (IH e1 Hm). lra.
Qed.

Lemma last_nth (l : list R) : last l 0 = nth (length l - 1) l 0.
Proof.
  induction l as [| x t IH]; [reflexivity |].
  destruct t as [| y r]; [reflexivity |].
  change (last (x :: y :: r) 0) with (last (y :: r) 0). rewrite IH.
  simpl. now rewrite Nat.sub_0_r.
Qed.

Lemma histogram_sum (a bins : list R) (h : list Z) :
  histogram a bins = Ok h ->
  (2 <= length bins)%nat ->
  total h
  = count (fun x => Rleb (nth 0 bins 0) x
                    && Rleb x (nth (length bins - 1) bins 0)) a.
Proof.
  intros Hh Hlen. pose proof (histogram_monotone _ _ _ Hh) as Hm.
  unfold histogram in Hh. rewrite Hm in Hh. injection Hh as <-.
  destruct bins as [| e0 [| e1 r]]; try (simpl in Hlen; lia).
  rewrite <- last_nth. cbn [nth].
  change (search_sorted_inclusive (sort a) (e0 :: e1 :: r))
    with (Z.of_nat (searchsorted_left (sort a) e0)
          :: search_sorted_inclusive (sort a) (e1 :: r)).
  rewrite diff_total.
  change (last (Z.of_nat (searchsorted_left (sort a) e0)
                :: search_sorted_inclusive (sort a) (e1 :: r))
               (Z.of_nat (searchsorted_left (sort a) e0)))
    with (last (search_sorted_inclusive (sort a) (e0 :: e1 :: r))
               (Z.of_nat (searchsorted_left (sort a) e0))).
  rewrite (last_indep _ _ 0%Z) by discriminate.
  rewrite search_sorted_inclusive_last.
  rewrite searchsorted_left_sort, searchsorted_right_sort.
  apply count_between_le. now apply monotone_first_last.
Qed.

(** X1: the counts of a histogram over two or more edges add up to the
    number of values from the first edge to the last edge, both included:
    every such value is counted once, and no other value is counted. *)
Theorem histogram_total (a bins : list R) (h : list Z) :
  histogram a bins = Ok h ->
  (2 <= length bins)%nat ->
  total h
  = count (fun x => Rleb (nth 0 bins 0) x
                    && Rleb x (nth (length bins - 1) bins 0)) a.
Proof. apply histogram_sum. Qed.

Lemma histogram_total_witness :
  total [1%Z]
  = count (fun x => Rleb (nth 0 [1; 2] 0) x
                    && Rleb x (nth (length [1; 2] - 1) [1; 2] 0)) [1; 3].
Proof.
  apply (histogram_total [1; 3] [1; 2] [1%Z] two_values_counts).
  simpl. lia.
Defined.

(** ** Bin centres *)

(** X2: over strictly growing edges there is one bin centre for every
    pair of adjacent edges, and it lies strictly between the two. *)
Theorem bin_centers_between_edges (v_table : list R) (i : nat) :
  increasing v_table ->
  (S i < length v_table)%nat ->
  length (bin_centers v_table) = (length v_table - 1)%nat /\
  nth i v_table 0 < nth i (bin_centers v_table) 0 < nth (S i) v_table 0.
Proof.
  intros Hinc Hi. split.
  - unfold bin_centers. now rewrite length_map, length_seq.
  - rewrite bin_centers_nth by exact Hi.
    pose proof (increasing_step v_table i Hinc Hi). lra.
Qed.

Lemma bin_centers_between_edges_witness :
  nth 0 [1; 2; 4] 0 < nth 0 (bin_centers [1; 2; 4]) 0 < nth 1 [1; 2; 4] 0.
Proof.
  apply (bin_centers_between_edges [1; 2; 4] 0).
  - simpl. repeat split; lra.
  - simpl. lia.
Defined.

(** ** The edges of the breakdown *)

Lemma map_seq_increasing (f : nat -> R) (k n : nat) :
  (forall i : nat, f i < f (S i)) -> increasing (map f (seq k n)).
Proof.
  intros Hf. revert k. induction n as [| n IH]; intros k; [exact I |].
  destruct n as [| n']; [exact I |].
  change (map f (seq k (S (S n')))) with (f k :: map f (seq (S k) (S n'))).
  specialize (IH (S k)).
  change (map f (seq (S k) (S n'))) with (f (S k) :: map f (seq (S (S k)) n')) in *.
  split; [apply Hf | exact IH].
Qed.

Lemma map_increasing (f : R -> R) (l : list R) :
  (forall x y : R, x < y -> f x < f y) -> increasing l -> increasing (map f l).
Proof.
  intros Hf. induction l as [| x t IH]; [intros _; exact I |].
  destruct t as [| y r]; [intros _; exact I |].
  intros [Hxy Hinc]. split; [now apply Hf | now apply IH].
Qed.

Lemma arange_edges (start stop step : R) :
  0 < step ->
  exists e : list R,
    arange start stop step = Ok e /\ increasing e /\
    (forall x : R, In x e -> start <= x < stop) /\
    (start < stop -> nth 0 e 0 = start /\ (0 < length e)%nat).
Proof.
  intros Hstep. unfold arange.
  destruct (Req_dec_T step 0) as [E | _]; [lra |].
  set (q := (stop - start) / step).
  pose proof (Zceil_bound q) as [Hlo Hhi].
  eexists. split; [reflexivity |]. split; [| split].
  - apply map_seq_increasing. intros i. rewrite S_INR. nra.
  - intros x Hx. apply in_map_iff in Hx as (i & <- & Hi).
    apply in_seq in Hi. destruct Hi as [_ Hi]. simpl in Hi.
    assert (Hc : (0 < Zceil q)%Z) by lia.
    assert (Hin : INR i <= IZR (Zceil q) - 1).
    { rewrite <- (Z2Nat.id (Zceil q)) by lia. rewrite <- INR_IZR_INZ.
      assert (H1 : (S i <= Z.to_nat (Zceil q))%nat) by lia.
      apply le_INR in H1. rewrite S_INR in H1. lra. }
    pose proof (pos_INR i) as Hi0.
    assert (Hq : INR i * step < stop - start).
    { replace (stop - start) with (q * step)
        by (unfold q; field; lra).
      apply Rmult_lt_compat_r; lra. }
    split; nra.
  - intros Hlt.
    assert (Hq : 0 < q) by (unfold q; apply Rdiv_lt_0_compat; lra).
    assert (Hc : (0 < Zceil q)%Z) by (apply lt_IZR; lra).
    destruct (Z.to_nat (Zceil q)) as [| n] eqn:En; [lia |].
    cbn [seq map nth length]. split; [simpl; lra | lia].
Qed.

Lemma fold_left_Rmax_spec (t : list R) (x : R) :
  In (fold_left Rmax t x) (x :: t) /\
  forall y : R, In y (x :: t) -> y <= fold_left Rmax t x.
Proof.
  revert x. induction t as [| z r IH]; intros x.
  - simpl. split; [now left |]. intros y [-> | []]. lra.
  - cbn [fold_left]. destruct (IH (Rmax x z)) as [Hin Hle]. split.
    + destruct Hin as [Hin | Hin]; [| right; right; exact Hin].
      rewrite <- Hin. unfold Rmax. destruct (Rle_dec x z); [right | ]; now left.
    + intros y [-> | [-> | Hy]].
      * eapply Rle_trans; [apply Rmax_l | apply Hle; now left].
      * eapply Rle_trans; [apply Rmax_r | apply Hle; now left].
      * apply Hle. now right.
Qed.

Lemma fold_left_Rmin_spec (t : list R) (x : R) :
  In (fold_left Rmin t x) (x :: t) /\
  forall y : R, In y (x :: t) -> fold_left Rmin t x <= y.
Proof.
  revert x. induction t as [| z r IH]; intros x.
  - simpl. split; [now left |]. intros y [-> | []]. lra.
  - cbn [fold_left]. destruct (IH (Rmin x z)) as [Hin Hle]. split.
    + destruct Hin as [Hin | Hin]; [| right; right; exact Hin].
      rewrite <- Hin. unfold Rmin. destruct (Rle_dec x z); [| right]; now left.
    + intros y [-> | [-> | Hy]].
      * eapply Rle_trans; [apply Hle; now left | apply Rmin_l].
      * eapply Rle_trans; [apply Hle; now left | apply Rmin_r].
      * apply Hle. now right.
Qed.

Lemma finite_log10 (a : list R) (l : list R) :
  finite (map log10 a) = Ok l ->
  l = map (fun x => ln x / ln 10) a /\ Forall (fun x => 0 < x) a.
Proof.
  revert l. induction a as [| x t IH]; intros l; simpl.
  - intros H. injection H as <-. split; [reflexivity | constructor].
  - unfold log10 at 1. destruct (Rlt_dec 0 x) as [Hx | Hx].
    + destruct (finite (map log10 t)) as [l' | |]; simpl; try discriminate.
      intros H. injection H as <-. destruct (IH l' eq_refl) as [-> Hall].
      split; [reflexivity | constructor; assumption].
    + destruct (Req_dec_T x 0); discriminate.
Qed.

Lemma finite_log10_positive (a : list R) :
  Forall (fun x => 0 < x) a ->
  finite (map log10 a) = Ok (map (fun x => ln x / ln 10) a).
Proof.
  induction 1 as [| x t Hx Ht IH]; [reflexivity |].
  simpl. rewrite (log10_pos x Hx), IH. reflexivity.
Qed.

Lemma pow10_log (x : R) : 0 < x -> pow10 (ln x / ln 10) = x.
Proof.
  intros Hx. unfold pow10, Rpower.
  replace (ln x / ln 10 * ln 10) with (ln x)
    by (field; pose proof ln_10_pos; lra).
  now apply exp_ln.
Qed.

Lemma pow10_lt (x y : R) : x < y -> pow10 x < pow10 y.
Proof. intros H. unfold pow10. apply Rpower_lt; lra. Qed.

(** What the bin construction returns when it returns: growing edges,
    all of them, with the exact quotient of [arange], below the largest
    value of the array. *)
Lemma make_v_table_edges (log : bool) (array : list R) (dv : R) (e : list R) :
  0 < dv ->
  make_v_table log array dv = Ok e ->
  increasing e /\
  exists x0 : R,
    In x0 array /\ (forall x : R, In x array -> x <= x0) /\
    (forall edge : R, In edge e -> edge < x0).
Proof.
  intros Hdv. unfold make_v_table. destruct log.
  - destruct (finite (map log10 array)) as [logs | |] eqn:Hfin; simpl;
      try discriminate.
    destruct (finite_log10 _ _ Hfin) as [-> Hpos].
    destruct array as [| x t]; [discriminate |].
    cbn [map Np.min Np.max Py.bind].
    destruct (arange_edges
                (fold_left Rmin (map (fun x => ln x / ln 10) t) (ln x / ln 10))
                (fold_left Rmax (map (fun x => ln x / ln 10) t) (ln x / ln 10))
                dv Hdv) as (ee & -> & Hinc & Hin & _).
    cbn [Py.bind]. intros H. injection H as <-.
    destruct (fold_left_Rmax_spec (map (fun x => ln x / ln 10) t) (ln x / ln 10))
      as [Hmem Hmax].
    change (ln x / ln 10 :: map (fun x => ln x / ln 10) t)
      with (map (fun x => ln x / ln 10) (x :: t)) in Hmem, Hmax.
    apply in_map_iff in Hmem as (x0 & Hx0 & Hx0in).
    rewrite Forall_forall in Hpos.
    pose proof ln_10_pos as Hln.
    split; [apply map_increasing; [exact pow10_lt | exact Hinc] |].
    exists x0. split; [exact Hx0in |]. split.
    + intros y Hy.
      assert (Hly : ln y / ln 10 <= ln x0 / ln 10)
        by (rewrite Hx0; apply Hmax, in_map_iff; now exists y).
      assert (Hlny : ln y <= ln x0).
      { apply (Rmult_le_reg_r (/ ln 10)); [now apply Rinv_0_lt_compat | exact Hly]. }
      destruct (Rle_lt_dec y x0) as [Hle | Hlt]; [exact Hle |].
      pose proof (ln_increasing x0 y (Hpos x0 Hx0in) Hlt). lra.
    + intros edge Hedge. apply in_map_iff in Hedge as (l & <- & Hl).
      rewrite <- (pow10_log x0 (Hpos x0 Hx0in)), Hx0.
      apply pow10_lt. now apply Hin.
  - destruct array as [| x t]; [discriminate |].
    cbn [Np.min Np.max Py.bind].
    destruct (arange_edges (fold_left Rmin t x) (fold_left Rmax t x) dv Hdv)
      as (ee & -> & Hinc & Hin & _).
    intros H. injection H as <-.
    destruct (fold_left_Rmax_spec t x) as [Hmem Hmax].
    split; [exact Hinc |].
    exists (fold_left Rmax t x). split; [exact Hmem |]. split; [exact Hmax |].
    intros edge Hedge. now apply Hin.
Qed.

(** ** One curve for each of up to three ranges *)

Lemma subscript_nth {A : Type} (l : list A) (i : nat) (d : A) :
  (i < length l)%nat -> subscript l i = Ok (nth i l d).
Proof.
  intros Hi. unfold subscript.
  destruct (nth_error l i) as [a |] eqn:E.
  - now rewrite (nth_error_nth l i d E).
  - apply nth_error_None in E. lia.
Qed.

Lemma breakdown_range_curve (env : breakdown_env) (low high : list R)
    (labels : list string) (log : bool) (k : nat) (fig : list curve) :
  env_ok env ->
  (k < 3)%nat -> (k < length low)%nat -> (k < length high)%nat ->
  (k < length labels)%nat ->
  breakdown_range env low high labels log k fig
  = (fig ++ [range_curve env low high labels log k], Ok tt).
Proof.
  intros (mask & Hind & Hlen & Hvir & Hm & _) Hk Hlow Hhigh Hlab.
  unfold breakdown_range, pbind, lift, draw, range_curve, range_fractions,
    range_values, halo_values.
  rewrite (subscript_nth low k 0 Hlow), (subscript_nth high k 0 Hhigh).
  rewrite Hind, take_where by lia.
  unfold range_select. rewrite take_where by (rewrite length_map; lia).
  rewrite histogram_counts by exact Hm.
  rewrite (subscript_nth colors k ""%string) by (simpl; lia).
  rewrite (subscript_nth lss k ""%string) by (simpl; lia).
  rewrite (subscript_nth labels k ""%string Hlab).
  reflexivity.
Qed.

Lemma for_each_range_curves (env : breakdown_env) (low high : list R)
    (labels : list string) (log : bool) (iis : list nat) (fig : list curve) :
  env_ok env ->
  Forall (fun k => (k < 3)%nat /\ (k < length low)%nat /\
                   (k < length high)%nat /\ (k < length labels)%nat) iis ->
  for_each (breakdown_range env low high labels log) iis fig
  = (fig ++ map (range_curve env low high labels log) iis, Ok tt).
Proof.
  intros Hok Hall. revert fig.
  induction Hall as [| k r (Hk & Hl & Hh & Hb) Hr IH]; intros fig.
  - simpl. now rewrite app_nil_r.
  - rewrite for_each_cons, breakdown_range_curve by assumption.
    rewrite IH. cbn [map]. now rewrite <- app_assoc.
Qed.

(** X4: when the filtering, the bin construction and the reference
    histogram succeed and the specification lists at most three ranges,
    [_plot_breakdown] returns normally after drawing exactly one curve for
    each range, in the order of the ranges, range [k] with the [k]-th colour,
    line style and label, all over the same bin centres. *)
Theorem breakdown_one_curve_per_range (self : Spectra) (array : list R)
    (filt : index) (low high : list R) (labels : list string) (dv : R)
    (log : bool) (env : breakdown_env) (fig : list curve) :
  breakdown_setup self array filt dv log = Ok env ->
  (length low <= 3)%nat ->
  length high = length low ->
  length labels = length low ->
  _plot_breakdown self array filt low high labels dv log fig
  = (fig ++ map (range_curve env low high labels log) (seq 0 (length low)),
     Ok tt).
Proof.
  intros Hsetup Hlow Hhigh Hlab.
  unfold _plot_breakdown, pbind at 1, lift. rewrite Hsetup.
  apply for_each_range_curves; [eapply setup_env_ok, Hsetup |].
  apply Forall_forall. intros k Hk. apply in_seq in Hk. lia.
Qed.

Lemma breakdown_one_curve_per_range_witness :
  exists env : breakdown_env,
    _plot_breakdown two_halos [1; 3] (Ints [0; 1]%nat) [0; 60] [60; 900]
      ["a"; "b"]%string 1 false []
    = ([] ++ map (range_curve env [0; 60] [60; 900] ["a"; "b"]%string false)
               (seq 0 (length [0; 60])), Ok tt).
Proof.
  destruct two_halos_setup as [env Hsetup]. exists env.
  apply (breakdown_one_curve_per_range two_halos [1; 3] (Ints [0; 1]%nat)
           [0; 60] [60; 900] ["a"; "b"]%string 1 false env [] Hsetup).
  - simpl. lia.
  - reflexivity.
  - reflexivity.
Defined.

(** ** The two breakdowns of the module *)

Lemma make_v_table_ok (log : bool) (x : R) (t : list R) (dv : R) :
  0 < dv ->
  (log = true -> Forall (fun v => 0 < v) (x :: t)) ->
  exists e : list R, make_v_table log (x :: t) dv = Ok e.
Proof.
  intros Hdv Hpos. unfold make_v_table. destruct log.
  - rewrite (finite_log10_positive (x :: t) (Hpos eq_refl)).
    cbn [map Np.min Np.max Py.bind].
    destruct (arange_edges
                (fold_left Rmin (map (fun x => ln x / ln 10) t) (ln x / ln 10))
                (fold_left Rmax (map (fun x => ln x / ln 10) t) (ln x / ln 10))
                dv Hdv) as (ee & -> & _).
    eexists. reflexivity.
  - cbn [Np.min Np.max Py.bind].
    destruct (arange_edges (fold_left Rmin t x) (fold_left Rmax t x) dv Hdv)
      as (ee & -> & _).
    eexists. reflexivity.
Qed.

Lemma breakdown_setup_succeeds (self : Spectra) (array : list R) (filt : index)
    (dv : R) (log : bool) (halo_f : list Z) (x : R) (t : list R) :
  0 < dv ->
  getitem (find_nearest_halo self) filt = Ok halo_f ->
  getitem array filt = Ok (x :: t) ->
  (log = true -> Forall (fun v => 0 < v) (x :: t)) ->
  exists env : breakdown_env,
    breakdown_setup self array filt dv log = Ok env /\ array_f env = x :: t.
Proof.
  intros Hdv Hh Ha Hpos. unfold breakdown_setup.
  rewrite Hh. cbn [Py.bind].
  rewrite take_where by (rewrite length_map; lia). cbn [Py.bind].
  rewrite Ha. cbn [Py.bind].
  destruct (make_v_table_ok log x t dv Hdv Hpos) as [e He].
  rewrite He. cbn [Py.bind].
  destruct (make_v_table_edges log (x :: t) dv e Hdv He) as [Hinc _].
  rewrite histogram_counts by (apply increasing_monotone, Hinc).
  cbn [Py.bind]. eexists. split; reflexivity.
Qed.

Lemma count_compress_or (p : R -> bool) (f g : R -> bool) (v h : list R) :
  (forall x : R, f x && g x = false) ->
  (count p (compress (map f v) h) + count p (compress (map g v) h))%Z
  = count p (compress (map (fun x => f x || g x) v) h).
Proof.
  intros Hdis. unfold count. revert h.
  induction v as [| a v IH]; intros h; [reflexivity |].
  destruct h as [| y h]; [reflexivity |].
  cbn [map compress]. specialize (IH h). specialize (Hdis a).
  destruct (f a), (g a); try discriminate; cbn [orb filter];
    destruct (p y); cbn [length]; lia.
Qed.

Lemma open_ranges_disjoint (lo1 hi1 lo2 hi2 : R) (v : R) :
  hi1 <= lo2 -> (Rltb lo1 v && Rltb v hi1) && (Rltb lo2 v && Rltb v hi2) = false.
Proof.
  intros H. destruct (Rlt_dec v hi1) as [H1 | H1].
  - rewrite (Rltb_false lo2 v) by lra. now rewrite andb_false_r.
  - rewrite (Rltb_false v hi1) by lra. now rewrite andb_false_r.
Qed.

Lemma range_fractions_nth (env : breakdown_env) (lo hi : R) (j : nat) :
  env_ok env ->
  (j < length (vhist0 env))%nat ->
  nth j (range_fractions env lo hi) 0
  = IZR (count (in_bin (v_table env) j) (range_values env lo hi))
    / (1 * IZR (nth j (vhist env) 0%Z)).
Proof.
  intros (mask & _ & _ & _ & _ & H0 & Hsub & _) Hj.
  unfold range_fractions. rewrite Hsub, H0 in *. unfold zero_subst, fraction.
  rewrite length_map, length_seq in Hj.
  rewrite map_map, combine_map_seq, map_map.
  rewrite !nth_map_seq by exact Hj. reflexivity.
Qed.

Lemma denominator_nth (env : breakdown_env) (j : nat) :
  env_ok env ->
  (j < length (vhist0 env))%nat ->
  nth j (vhist0 env) 0%Z = count (in_bin (v_table env) j) (array_f env) /\
  nth j (vhist env) 0%Z
  = (if (nth j (vhist0 env) 0 =? 0)%Z then 1 else nth j (vhist0 env) 0)%Z.
Proof.
  intros (mask & _ & _ & _ & _ & H0 & Hsub & _) Hj. split.
  - rewrite H0 in *. rewrite length_map, length_seq in Hj.
    now rewrite nth_map_seq.
  - rewrite Hsub. unfold zero_subst. now rewrite (nth_map_in _ _ _ _ 0%Z).
Qed.

Lemma halo_values_part (env : breakdown_env) (p : R -> bool) (m : list bool) :
  env_ok env ->
  (count p (compress m (halo_values env)) <= count p (array_f env))%Z.
Proof.
  intros (mask & Hind & Hlen & _). unfold halo_values.
  rewrite Hind, take_where by lia.
  etransitivity; apply count_compress_le.
Qed.

Lemma fraction_le_1 (n t d : Z) :
  (0 <= n <= t)%Z -> d = (if (t =? 0)%Z then 1 else t)%Z ->
  0 <= IZR n / (1 * IZR d) <= 1.
Proof.
  intros [Hn Hnt] Hd.
  assert (Hd1 : (1 <= d)%Z) by (rewrite Hd; apply zero_subst_ge_1; lia).
  assert (Hnd : (n <= d)%Z) by (rewrite Hd; destruct (Z.eqb_spec t 0); lia).
  apply IZR_le in Hd1, Hnd, Hn.
  split.
  - apply Rmult_le_pos; [lra |]. apply Rlt_le, Rinv_0_lt_compat. lra.
  - apply (Rmult_le_reg_r (1 * IZR d)); [lra |].
    unfold Rdiv. rewrite Rmult_assoc, Rinv_l by lra. lra.
Qed.

(** Ranges that follow one another share no sightline, so their fractions
    add up to at most one in every bin. *)
Lemma disjoint_ranges_sum (env : breakdown_env) (lo1 hi1 lo2 hi2 lo3 hi3 : R)
    (j : nat) :
  env_ok env ->
  hi1 <= lo2 -> lo2 <= hi2 -> hi2 <= lo3 ->
  (j < length (vhist0 env))%nat ->
  0 <= nth j (range_fractions env lo1 hi1) 0 /\
  0 <= nth j (range_fractions env lo2 hi2) 0 /\
  0 <= nth j (range_fractions env lo3 hi3) 0 /\
  nth j (range_fractions env lo1 hi1) 0 + nth j (range_fractions env lo2 hi2) 0
  + nth j (range_fractions env lo3 hi3) 0 <= 1.
Proof.
  intros Hok H12 H22 H23 Hj.
  rewrite !range_fractions_nth by assumption.
  destruct (denominator_nth env j Hok Hj) as [Ht Hd].
  set (p := in_bin (v_table env) j) in *.
  set (d := nth j (vhist env) 0%Z) in *.
  set (t := nth j (vhist0 env) 0%Z) in *.
  set (f1 := fun v => Rltb lo1 v && Rltb v hi1).
  set (f2 := fun v => Rltb lo2 v && Rltb v hi2).
  set (f3 := fun v => Rltb lo3 v && Rltb v hi3).
  unfold range_values. fold f1 f2 f3.
  set (n1 := count p (compress (map f1 (virial env)) (halo_values env))).
  set (n2 := count p (compress (map f2 (virial env)) (halo_values env))).
  set (n3 := count p (compress (map f3 (virial env)) (halo_values env))).
  assert (H1 : (0 <= n1)%Z) by apply count_nonneg.
  assert (H2 : (0 <= n2)%Z) by apply count_nonneg.
  assert (H3 : (0 <= n3)%Z) by apply count_nonneg.
  assert (Hsum : (n1 + n2 + n3 <= t)%Z).
  { unfold n1, n2, n3.
    rewrite (count_compress_or p f1 f2)
      by (intros x; apply open_ranges_disjoint; exact H12).
    rewrite (count_compress_or p (fun x => f1 x || f2 x) f3).
    - rewrite Ht. now apply halo_values_part.
    - intros x. rewrite andb_orb_distrib_l.
      unfold f1, f2, f3.
      rewrite (open_ranges_disjoint lo1 hi1 lo3 hi3 x) by lra.
      now rewrite (open_ranges_disjoint lo2 hi2 lo3 hi3 x) by lra. }
  destruct (fraction_le_1 n1 t d ltac:(lia) Hd) as [Ha _].
  destruct (fraction_le_1 n2 t d ltac:(lia) Hd) as [Hb _].
  destruct (fraction_le_1 n3 t d ltac:(lia) Hd) as [Hc _].
  destruct (fraction_le_1 (n1 + n2 + n3) t d ltac:(lia) Hd) as [_ Hs].
  repeat split; try assumption.
  rewrite !plus_IZR in Hs. unfold Rdiv in *. lra.
Qed.

(** X5: [plot_f_peak_breakdown], called with a positive bin width and a
    filter that selects at least one sightline, returns normally after
    drawing two curves over linear bins: the fractions of the virial
    velocities between 0 and 50, in red and dashed, and of those between
    50 and 900, in purple and dotted.  In every bin the two fractions are
    not negative and add up to at most one. *)
Theorem f_peak_breakdown_two_curves (self : Spectra) (vels : list R)
    (ii : index) (dv : R) (halo_f : list Z) (x : R) (t : list R)
    (fig : list curve) :
  0 < dv ->
  getitem (find_nearest_halo self) ii = Ok halo_f ->
  getitem vels ii = Ok (x :: t) ->
  exists env : breakdown_env,
    breakdown_setup self vels ii dv false = Ok env /\
    plot_f_peak_breakdown self vels ii dv fig
    = (fig ++ [ {| logx := false; xdata := vbin env;
                   ydata := range_fractions env 0 50;
                   color := "red"; ls := "--"; label := "< 50" |};
                {| logx := false; xdata := vbin env;
                   ydata := range_fractions env 50 900;
                   color := "purple"; ls := ":"; label := "> 50" |} ],
       Ok tt) /\
    forall j : nat, (j < length (vhist0 env))%nat ->
      0 <= nth j (range_fractions env 0 50) 0 /\
      0 <= nth j (range_fractions env 50 900) 0 /\
      nth j (range_fractions env 0 50) 0
      + nth j (range_fractions env 50 900) 0 <= 1.
Proof.
  intros Hdv Hh Ha.
  destruct (breakdown_setup_succeeds self vels ii dv false halo_f x t Hdv Hh Ha)
    as (env & Hsetup & _); [discriminate |].
  pose proof (setup_env_ok _ _ _ _ _ _ Hsetup) as Hok.
  exists env. split; [exact Hsetup |]. split.
  - unfold plot_f_peak_breakdown, _plot_breakdown, pbind at 1, lift.
    rewrite Hsetup.
    rewrite for_each_range_curves;
      [reflexivity | exact Hok |].
    repeat (constructor; [simpl; lia |]). constructor.
  - intros j Hj.
    destruct (disjoint_ranges_sum env 0 50 50 900 900 900 j Hok)
      as (A & B & C & D); try lra; exact Hj.
Qed.

Lemma f_peak_breakdown_two_curves_witness :
  exists env : breakdown_env,
    breakdown_setup two_halos [1; 3] (Ints [0; 1]%nat) 1 false = Ok env.
Proof.
  assert (Hdv : 0 < 1) by lra.
  destruct (f_peak_breakdown_two_curves two_halos [1; 3] (Ints [0; 1]%nat) 1
              [1%Z; 2%Z] 1 [3] [] Hdv eq_refl eq_refl) as (env & Hsetup & _).
  exists env. exact Hsetup.
Defined.

(** X6: [plot_vel_width_breakdown], called with a positive bin width and
    a filter that selects at least one sightline, all selected velocity
    widths being positive, returns normally after drawing three curves over
    log-spaced bins, for the virial velocities between 0 and 60, between
    60 and 120 and between 120 and 900, in the three styles of the tables.
    The ranges share no sightline: in every bin the three fractions are
    not negative and add up to at most one. *)
Theorem vel_width_breakdown_three_curves (self : Spectra) (vels : list R)
    (ii : index) (dv : R) (halo_f : list Z) (x : R) (t : list R)
    (fig : list curve) :
  0 < dv ->
  getitem (find_nearest_halo self) ii = Ok halo_f ->
  getitem vels ii = Ok (x :: t) ->
  Forall (fun v => 0 < v) (x :: t) ->
  exists env : breakdown_env,
    breakdown_setup self vels ii dv true = Ok env /\
    plot_vel_width_breakdown self vels ii dv fig
    = (fig ++ [ {| logx := true; xdata := vbin env;
                   ydata := range_fractions env 0 60;
                   color := "red"; ls := "--"; label := "< 60" |};
                {| logx := true; xdata := vbin env;
                   ydata := range_fractions env 60 120;
                   color := "purple"; ls := ":"; label := "60-120" |};
                {| logx := true; xdata := vbin env;
                   ydata := range_fractions env 120 900;
                   color := "cyan"; ls := "-"; label := "> 120" |} ],
       Ok tt) /\
    forall j : nat, (j < length (vhist0 env))%nat ->
      0 <= nth j (range_fractions env 0 60) 0 /\
      0 <= nth j (range_fractions env 60 120) 0 /\
      0 <= nth j (range_fractions env 120 900) 0 /\
      nth j (range_fractions env 0 60) 0
      + nth j (range_fractions env 60 120) 0
      + nth j (range_fractions env 120 900) 0 <= 1.
Proof.
  intros Hdv Hh Ha Hpos.
  destruct (breakdown_setup_succeeds self vels ii dv true halo_f x t Hdv Hh Ha)
    as (env & Hsetup & _); [intros _; exact Hpos |].
  pose proof (setup_env_ok _ _ _ _ _ _ Hsetup) as Hok.
  exists env. split; [exact Hsetup |]. split.
  - unfold plot_vel_width_breakdown, _plot_breakdown, pbind at 1, lift.
    rewrite Hsetup.
    rewrite for_each_range_curves;
      [reflexivity | exact Hok |].
    repeat (constructor; [simpl; lia |]). constructor.
  - intros j Hj. apply disjoint_ranges_sum; try assumption; lra.
Qed.

Lemma vel_width_breakdown_three_curves_witness :
  exists env : breakdown_env,
    breakdown_setup two_halos [1; 1000] (Ints [0; 1]%nat) 2 true = Ok env.
Proof.
  assert (Hdv : 0 < 2) by lra.
  assert (Hpos : Forall (fun v => 0 < v) [1; 1000])
    by (repeat (constructor; [lra |]); constructor).
  destruct (vel_width_breakdown_three_curves two_halos [1; 1000]
              (Ints [0; 1]%nat) 2 [1%Z; 2%Z] 1 [1000] [] Hdv eq_refl eq_refl Hpos)
    as (env & Hsetup & _).
  exists env. exact Hsetup.
Defined.

(** ** The separated fraction *)

Lemma getitem_mask (a : list R) (m : list bool) (l : list R) :
  getitem a (Mask m) = Ok l -> l = compress m a.
Proof.
  simpl. destruct (Nat.eqb_spec (length m) (length a)) as [E | E];
    [| discriminate].
  rewrite take_where by lia. intros H. now injection H.
Qed.

(** X7: when [get_separated] returns a boolean mask, the curve that
    [plot_sep_frac] draws has one value for each bin centre, and every
    value is a fraction between 0 and 1: the separated spectra of a bin
    are among the spectra of the bin. *)
Theorem sep_frac_of_a_mask (vels : list R) (ind : index) (m : list bool)
    (dv : R) (color ls label : string) (fig fig' : list curve) :
  plot_sep_frac vels ind (Mask m) dv color ls label fig = (fig', Ok tt) ->
  exists c : curve,
    fig' = fig ++ [c] /\
    length (xdata c) = length (ydata c) /\
    forall j : nat, (j < length (ydata c))%nat -> 0 <= nth j (ydata c) 0 <= 1.
Proof.
  unfold plot_sep_frac, pbind, lift, draw.
  destruct (arange 1 3 dv) as [e | |]; try discriminate.
  destruct (getitem vels ind) as [vels_f | |]; try discriminate.
  destruct (histogram vels_f _) as [hist1 | |] eqn:H1; try discriminate.
  destruct (getitem vels_f (Mask m)) as [vels_sep | |] eqn:Hsep; try discriminate.
  destruct (histogram vels_sep _) as [hist2 | |] eqn:H2; try discriminate.
  intros H. injection H as <-.
  pose proof (histogram_monotone _ _ _ H1) as Hm.
  rewrite histogram_counts in H1, H2 by exact Hm.
  injection H1 as <-. injection H2 as <-.
  apply getitem_mask in Hsep. subst vels_sep.
  set (vt := map pow10 e).
  eexists. split; [reflexivity |]. cbn [xdata ydata].
  unfold zero_subst, fraction.
  rewrite map_map, combine_map_seq, map_map.
  split.
  - unfold bin_centers. now rewrite !length_map, !length_seq.
  - intros j Hj. rewrite length_map, length_seq in Hj.
    rewrite (nth_map_seq _ _ _ _ Hj). cbn [fst snd].
    apply (fraction_le_1 _ (count (in_bin vt j) vels_f)); [| reflexivity].
    split; [apply count_nonneg | apply count_compress_le].
Qed.

Lemma sep_frac_edges : arange 1 3 1 = Ok [1; 2].
Proof.
  rewrite (arange_length 1 3 1 2) by (simpl; lra).
  simpl. replace (1 + 0 * 1) with 1 by lra. replace (1 + 1 * 1) with 2 by lra.
  reflexivity.
Qed.

Lemma sep_frac_of_a_mask_witness :
  exists c : curve,
    fst (plot_sep_frac [20; 50] (Ints [0; 1]%nat) (Mask [true; false]) 1
           "blue" "-" "" []) = [] ++ [c] /\
    length (xdata c) = length (ydata c).
Proof.
  assert (Hm : monotone (map pow10 [1; 2]) = true).
  { apply increasing_monotone, map_increasing; [exact pow10_lt |].
    simpl. repeat split; lra. }
  assert (Hrun : exists fig',
             plot_sep_frac [20; 50] (Ints [0; 1]%nat) (Mask [true; false]) 1
               "blue" "-" "" [] = (fig', Ok tt)).
  { unfold plot_sep_frac, pbind, lift, draw. rewrite sep_frac_edges.
    cbn [getitem take subscript nth_error Py.bind length Nat.eqb where_
         where_from].
    rewrite !histogram_counts by exact Hm.
    eexists. reflexivity. }
  destruct Hrun as [fig' Hrun].
  destruct (sep_frac_of_a_mask _ _ _ _ _ _ _ _ _ Hrun) as (c & E & Hlen & _).
  exists c. rewrite Hrun. split; [exact E | exact Hlen].
Defined.

(** ** Writing twice through the arrays of the accessors *)

Lemma update_update {A : Type} (l : list A) (i : nat) (a b : A) :
  update (update l i a) i b = update l i b.
Proof.
  revert i. induction l as [| x t IH]; intros [| i]; simpl; auto.
  now rewrite IH.
Qed.

Lemma update_length {A : Type} (l : list A) (i : nat) (a : A) :
  length (update l i a) = length l.
Proof.
  revert i. induction l as [| x t IH]; intros [| i]; simpl; auto.
Qed.

Lemma update_out_of_range {A : Type} (l : list A) (i : nat) (a : A) :
  (length l <= i)%nat -> update l i a = l.
Proof.
  revert i. induction l as [| x t IH]; intros [| i] H; simpl in *; auto; try lia.
  rewrite IH by lia. reflexivity.
Qed.

Lemma threshold_twice (d : R) :
  (fun d => if Rltb d 1e-6 then 0 else d) (if Rltb d 1e-6 then 0 else d)
  = if Rltb d 1e-6 then 0 else d.
Proof.
  cbv beta. destruct (Rltb d 1e-6) eqn:E; [| now rewrite E].
  now rewrite (Rltb_true 0 1e-6) by lra.
Qed.

(** X8: after [plot_temp] every entry of the density array is either 0
    or at least 1e-6, and the array has kept its shape; calling
    [plot_temp] a second time leaves all arrays as the first call left
    them. *)
Theorem plot_temp_thresholds_once (h : heap) (temp den : ref) :
  plot_temp_arrays temp den (plot_temp_arrays temp den h)
  = plot_temp_arrays temp den h /\
  map (@length R) (load2 (plot_temp_arrays temp den h) den)
  = map (@length R) (load2 h den) /\
  forall (row : list R) (d : R),
    In row (load2 (plot_temp_arrays temp den h) den) -> In d row ->
    d = 0 \/ 1e-6 <= d.
Proof.
  set (f := fun d : R => if Rltb d 1e-6 then 0 else d).
  assert (Hload : load2 (plot_temp_arrays temp den h) den
                  = map (map f) (load2 h den)).
  { unfold plot_temp_arrays, load2, store2. cbn [arrays2]. fold f.
    destruct (Nat.lt_ge_cases den (length (arrays2 h))) as [Hd | Hd].
    - now apply nth_update_same.
    - rewrite update_out_of_range by exact Hd.
      now rewrite (nth_overflow (arrays2 h) [] Hd). }
  split; [| split].
  - unfold plot_temp_arrays at 1. rewrite Hload.
    unfold plot_temp_arrays, store2. cbn [arrays2 arrays3]. fold f.
    rewrite update_update. f_equal. f_equal.
    rewrite map_map. apply map_ext. intros row.
    rewrite map_map. apply map_ext. intros d. apply threshold_twice.
  - rewrite Hload, map_map. apply map_ext. intros row. apply length_map.
  - intros row d Hrow Hd. rewrite Hload in Hrow.
    apply in_map_iff in Hrow as (row0 & <- & _).
    apply in_map_iff in Hd as (d0 & <- & _).
    unfold f. destruct (Rlt_dec d0 1e-6) as [H | H].
    + rewrite (Rltb_true _ _ H). now left.
    + rewrite (Rltb_false _ _ H). right. lra.
Qed.




(** ** plot_density *)

Lemma roll_length (a : list R) (shift : Z) : length (roll a shift) = length a.
Proof. unfold roll. now rewrite length_map, length_seq. Qed.

Lemma roll_nth (a : list R) (shift : Z) (j : nat) :
  (j < length a)%nat ->
  nth j (roll a shift) 0
  = nth (Z.to_nat ((Z.of_nat j - shift) mod Z.of_nat (length a))) a 0.
Proof.
  intros Hj. unfold roll.
  exact (nth_map_seq
           (fun i => nth (Z.to_nat ((Z.of_nat i - shift) mod Z.of_nat (length a))) a 0)
           (length a) j 0 Hj).
Qed.

(** X10: when [plot_density] returns, the two arrays it plots are as long
    as the sightline, the largest density of the sightline, with the 1e-30
    added to every density, sits at the middle position, and the abscissa
    of that position is 0: the peak is drawn at the origin. *)
Theorem plot_density_centres_peak (density : list (list R)) (num : nat)
    (dvbin velfac : R) (x y : list R) :
  plot_density density num dvbin velfac = Ok (x, y) ->
  exists (row : list R) (peak : R),
    nth_error density num = Some row /\
    In peak row /\ (forall d : R, In d row -> d <= peak) /\
    length x = length row /\ length y = length row /\
    nth (length row / 2) y 0 = peak + 1e-30 /\
    nth (length row / 2) x 0 = 0.
Proof.
  unfold plot_density. unfold subscript at 1.
  destruct (nth_error density num) as [row |] eqn:Hrow; simpl; try discriminate.
  destruct (Np.max row) as [peak | |] eqn:Hpeak; simpl; try discriminate.
  unfold subscript at 1.
  destruct (nth_error (where_ (map (fun d => Reqb d peak) row)) 0)
    as [ind_m |] eqn:Hw; simpl; try discriminate.
  destruct (Req_dec_T velfac 0) as [E | Hvel]; simpl; try discriminate.
  intros H. injection H as <- <-.
  assert (Hin : In ind_m (where_ (map (fun d => Reqb d peak) row)))
    by (eapply nth_error_In, Hw).
  apply where_In in Hin. rewrite nth_error_map in Hin.
  destruct (nth_error row ind_m) as [d0 |] eqn:Hd0; [| discriminate].
  simpl in Hin. injection Hin as Hin. apply Reqb_spec in Hin. subst d0.
  assert (Hlt : (ind_m < length row)%nat) by (apply nth_error_Some; congruence).
  assert (Hmid : (length row / 2 < length row)%nat)
    by (apply Nat.div_lt; lia).
  exists row, peak.
  change (fst (Nat.divmod (length row) 1 0 1)) with (length row / 2)%nat.
  split; [reflexivity |].
  split; [eapply nth_error_In, Hd0 |]. split; [| split; [| split; [| split]]].
  - intros d Hd. destruct row as [| r0 t]; [destruct Hd |].
    unfold Np.max in Hpeak. injection Hpeak as <-.
    now apply fold_left_Rmax_spec.
  - now rewrite length_map, length_seq, roll_length.
  - now rewrite length_map, roll_length.
  - rewrite (nth_map_in _ _ _ _ 0) by (rewrite roll_length; exact Hmid).
    rewrite roll_nth by exact Hmid.
    assert (Hidx : Z.to_nat ((Z.of_nat (length row / 2)
                              - (Z.of_nat (length row) / 2 - Z.of_nat ind_m))
                             mod Z.of_nat (length row)) = ind_m).
    { rewrite Nat2Z.inj_div.
      replace (Z.of_nat (length row) / Z.of_nat 2
               - (Z.of_nat (length row) / 2 - Z.of_nat ind_m))%Z
        with (Z.of_nat ind_m) by (simpl; lia).
      rewrite Z.mod_small by lia. apply Nat2Z.id. }
    rewrite Hidx. now rewrite (nth_error_nth row ind_m 0 Hd0).
  - rewrite roll_length.
    rewrite (nth_map_seq
               (fun i => INR i * (dvbin / velfac)
                         - IZR (Z.of_nat (length row) / 2) * (dvbin / velfac))
               (length row) _ 0 Hmid).
    rewrite (INR_IZR_INZ (length row / 2)), Nat2Z.inj_div. simpl Z.of_nat. lra.
Qed.

Lemma plot_density_run :
  exists x y : list R, plot_density [[1; 5; 2; 3]] 0 1 1 = Ok (x, y).
Proof.
  unfold plot_density, Np.max.
  cbn [subscript nth_error Py.bind fold_left]. rminmax. cbn [map].
  rewrite (Reqb_false 1 5), (Reqb_true 5 5), (Reqb_false 2 5), (Reqb_false 3 5)
    by lra.
  cbn [where_ where_from nth_error Py.bind].
  destruct (Req_dec_T 1 0) as [E | _]; [lra |].
  cbn [Py.bind]. eexists _, _. reflexivity.
Qed.

Lemma plot_density_centres_peak_witness :
  exists (row : list R) (peak : R),
    nth_error [[1; 5; 2; 3]] 0 = Some row /\ In peak row /\
    (forall d : R, In d row -> d <= peak).
Proof.
  destruct plot_density_run as (x & y & Hrun).
  destruct (plot_density_centres_peak [[1; 5; 2; 3]] 0 1 1 x y Hrun)
    as (row & peak & Hrow & Hin & Hmax & _).
  exists row, peak. auto.
Defined.

(** ** The axes of the correlation map *)

Lemma linspace_length (a b : R) (n : nat) : length (linspace a b n) = n.
Proof. unfold linspace. now rewrite length_map, length_seq. Qed.

Lemma linspace_nth (a b : R) (n i : nat) :
  (i < n)%nat ->
  nth i (linspace a b n) 0 = a + INR i * ((b - a) / INR (n - 1)).
Proof.
  intros Hi. unfold linspace.
  exact (nth_map_seq (fun i => a + INR i * ((b - a) / INR (n - 1))) n i 0 Hi).
Qed.

Lemma linspace_increasing (a b : R) (n : nat) :
  a < b -> (2 <= n)%nat -> increasing (linspace a b n).
Proof.
  intros Hab Hn. unfold linspace. apply map_seq_increasing. intros i.
  assert (Hpos : 0 < INR (n - 1)) by (apply lt_0_INR; lia).
  assert (Hstep : 0 < (b - a) / INR (n - 1)) by (apply Rdiv_lt_0_compat; lra).
  rewrite S_INR. nra.
Qed.

Lemma linspace_first (a b : R) (n : nat) :
  (1 <= n)%nat -> nth 0 (linspace a b n) 0 = a.
Proof. intros Hn. rewrite linspace_nth by lia. simpl INR. ring. Qed.

Lemma linspace_last (a b : R) (n : nat) :
  (2 <= n)%nat -> nth (n - 1) (linspace a b n) 0 = b.
Proof.
  intros Hn. rewrite linspace_nth by lia.
  assert (Hpos : 0 < INR (n - 1)) by (apply lt_0_INR; lia).
  field. lra.
Qed.

Lemma outer_edges_cover (a : list R) :
  fst (outer_edges a) < snd (outer_edges a) /\
  forall v : R, In v a -> fst (outer_edges a) <= v <= snd (outer_edges a).
Proof.
  destruct a as [| x t]; [simpl; split; [lra | intros v []] |].
  unfold outer_edges.
  destruct (fold_left_Rmin_spec t x) as [Hmin_in Hmin].
  destruct (fold_left_Rmax_spec t x) as [Hmax_in Hmax].
  pose proof (Hmin _ Hmax_in) as Hle.
  destruct (Req_dec_T (fold_left Rmin t x) (fold_left Rmax t x)) as [E | E];
    cbn [fst snd].
  - split; [lra |]. intros v Hv.
    specialize (Hmin v Hv). specialize (Hmax v Hv). lra.
  - split; [lra |]. intros v Hv. split; [now apply Hmin | now apply Hmax].
Qed.

Lemma edge_centers_between (edges : list R) (i : nat) :
  increasing edges -> (S i < length edges)%nat ->
  nth i edges 0 < nth i (edge_centers edges) 0 < nth (S i) edges 0.
Proof.
  intros Hinc Hi. rewrite edge_centers_nth by exact Hi.
  pose proof (increasing_step edges i Hinc Hi). lra.
Qed.

Lemma axis_of_histogram2d (vals : list R) (nbins : nat) (edges : list R)
    (log : bool) :
  histogram2d_edges vals nbins = Ok edges ->
  axis_covers vals nbins edges
    (if log then map pow10 (edge_centers edges) else edge_centers edges) log.
Proof.
  unfold histogram2d_edges. destruct nbins as [| n]; [discriminate |].
  intros H. injection H as <-.
  destruct (outer_edges_cover vals) as [Hlt Hcover].
  set (lo := fst (outer_edges vals)) in *.
  set (hi := snd (outer_edges vals)) in *.
  assert (Hlen : length (linspace lo hi (S (n + 1))) = S (S n))
    by (rewrite linspace_length; lia).
  assert (Hinc : increasing (linspace lo hi (S (n + 1))))
    by (apply linspace_increasing; [exact Hlt | lia]).
  unfold axis_covers. split; [exact Hlen |]. split; [| split; [exact Hinc | split]].
  - destruct log; [rewrite length_map |]; rewrite edge_centers_length, Hlen;
      simpl; lia.
  - intros v Hv. rewrite linspace_first by lia.
    replace (S n) with (S (n + 1) - 1)%nat by lia.
    rewrite linspace_last by lia. now apply Hcover.
  - intros i Hi.
    assert (Hi' : (S i < length (linspace lo hi (S (n + 1))))%nat) by lia.
    pose proof (edge_centers_between _ i Hinc Hi') as [Ha Hb].
    destruct log; [| split; assumption].
    rewrite (nth_map_in pow10 _ _ _ 0)
      by (rewrite edge_centers_length; lia).
    split; apply pow10_lt; assumption.
Qed.

(** X11: when [_plot_2d_contour] gets as far as its bin centres, the
    transformed data of both axes are finite, and each axis has one more
    edge than the requested number of bins, the edges growing strictly
    from at most the smallest to at least the largest transformed value,
    so that no point falls outside the map; each bin has one centre, which
    lies strictly inside the bin, for a logarithmic axis after it was
    converted back with [10**]. *)
Theorem contour_axes_cover_data (xvals yvals : list R) (nbins : nat)
    (ylog xlog : bool) (ax : contour_axes) :
  _plot_2d_contour xvals yvals nbins ylog xlog = Ok ax ->
  exists xs ys : list R,
    finite (log_axis xlog xvals) = Ok xs /\
    finite (log_axis ylog yvals) = Ok ys /\
    axis_covers xs nbins (xedges ax) (xbins ax) xlog /\
    axis_covers ys nbins (yedges ax) (ybins ax) ylog.
Proof.
  unfold _plot_2d_contour, contour_transform. cbn [Py.bind fst snd].
  destruct (finite (log_axis xlog xvals)) as [xs | |]; simpl; try discriminate.
  destruct (finite (log_axis ylog yvals)) as [ys | |]; simpl; try discriminate.
  destruct (histogram2d_edges xs nbins) as [xe | |] eqn:Hx; simpl; try discriminate.
  destruct (histogram2d_edges ys nbins) as [ye | |] eqn:Hy; simpl; try discriminate.
  intros H. injection H as <-. cbn [xedges yedges xbins ybins].
  exists xs, ys. split; [reflexivity |]. split; [reflexivity |].
  split; now apply axis_of_histogram2d.
Qed.

Lemma contour_axes_cover_data_witness :
  exists (ax : contour_axes) (xs ys : list R),
    finite (log_axis true [1; 1000]) = Ok xs /\
    finite (log_axis true [1; 1000]) = Ok ys /\
    axis_covers xs 1 (xedges ax) (xbins ax) true /\
    axis_covers ys 1 (yedges ax) (ybins ax) true.
Proof.
  destruct decade_contour as (ax & Hrun). exists ax.
  exact (contour_axes_cover_data [1; 1000] [1; 1000] 1 true true ax Hrun).
Defined.

(** ** The metallicity distribution *)

Lemma edge_widths_length (bins : list R) :
  length (edge_widths bins) = (length bins - 1)%nat.
Proof.
  induction bins as [| x t IH]; [reflexivity |].
  destruct t as [| y r]; [reflexivity |].
  change (edge_widths (x :: y :: r)) with ((y - x) :: edge_widths (y :: r)).
  cbn [length] in *. lia.
Qed.

Lemma edge_widths_positive (bins : list R) :
  increasing bins -> Forall (fun w => 0 < w) (edge_widths bins).
Proof.
  induction bins as [| x t IH]; [constructor |].
  destruct t as [| y r]; [constructor |].
  intros [Hxy Hinc].
  change (edge_widths (x :: y :: r)) with ((y - x) :: edge_widths (y :: r)).
  constructor; [lra | now apply IH].
Qed.

Lemma existsb_zero_width (ws : list R) :
  Forall (fun w => 0 < w) ws -> existsb (fun w => Reqb w 0) ws = false.
Proof.
  induction 1 as [| w t Hw Ht IH]; [reflexivity |].
  simpl. rewrite (Reqb_false w 0) by lra. exact IH.
Qed.

Lemma density_area (n : list Z) (ws : list R) (s : Z) :
  length n = length ws -> Forall (fun w => 0 < w) ws -> s <> 0%Z ->
  area (map (fun p => IZR (fst p) / snd p / IZR s) (combine n ws)) ws
  = IZR (total n) / IZR s.
Proof.
  intros Hlen Hpos Hs. assert (HsR : IZR s <> 0) by (now apply not_0_IZR).
  revert n Hlen. induction Hpos as [| w t Hw Ht IH]; intros n Hlen.
  - destruct n; [| discriminate].
    unfold area, total. simpl. field. exact HsR.
  - destruct n as [| c n]; [discriminate |].
    injection Hlen as Hlen. specialize (IH n Hlen).
    unfold area, total in *. cbn [combine map fold_right fst snd].
    rewrite IH, plus_IZR. field. split; lra.
Qed.

Lemma log10_in_decades (m : R) :
  / 1000 <= m <= 1 -> -3 <= ln m / ln 10 <= 0.
Proof.
  intros [Hlo Hhi]. pose proof ln_10_pos as Hln.
  assert (Hm : 0 < m) by lra.
  assert (H3 : ln (/ 1000) = - (3 * ln 10)).
  { rewrite ln_Rinv by lra. replace 1000 with (10 ^ 3) by (simpl; lra).
    rewrite ln_pow by lra. simpl INR. lra. }
  assert (Ha : ln (/ 1000) <= ln m).
  { destruct Hlo as [Hlt | <-]; [| lra].
    apply Rlt_le, ln_increasing; [| exact Hlt].
    apply Rinv_0_lt_compat. lra. }
  assert (Hb : ln m <= 0).
  { rewrite <- ln_1. destruct Hhi as [Hlt | ->]; [| lra].
    apply Rlt_le, ln_increasing; assumption. }
  split.
  - apply (Rmult_le_reg_r (ln 10)); [exact Hln |].
    unfold Rdiv. rewrite Rmult_assoc, Rinv_l by lra. lra.
  - apply (Rmult_le_reg_r (ln 10)); [exact Hln |].
    unfold Rdiv. rewrite Rmult_assoc, Rinv_l by lra. lra.
Qed.

Lemma count_positive (p : R -> bool) (a : list R) (x : R) :
  In x a -> p x = true -> (1 <= count p a)%Z.
Proof.
  intros Hin Hp. unfold count.
  assert (H : In x (filter p a)) by (apply filter_In; auto).
  destruct (filter p a); [destruct H | simpl; lia].
Qed.

(** X12: for two or more edges and positive metallicities of which at
    least one lies between 0.001 and 1, [_plot_metallicity] draws one
    curve, with a value for each of the [nbins - 1] bin centres; no value
    is negative, and the values times the widths of their bins add up
    to 1: the curve is a probability density over [-3, 0]. *)
Theorem metallicity_density_integrates_to_one (met : list R) (nbins : nat)
    (color ls label : string) (fig : list curve) :
  (2 <= nbins)%nat ->
  Forall (fun m => 0 < m) met ->
  (exists m : R, In m met /\ / 1000 <= m <= 1) ->
  exists c : curve,
    _plot_metallicity met nbins color ls label fig = (fig ++ [c], Ok tt) /\
    length (xdata c) = (nbins - 1)%nat /\
    length (ydata c) = (nbins - 1)%nat /\
    (forall y : R, In y (ydata c) -> 0 <= y) /\
    area (ydata c) (edge_widths (linspace (-3) 0 nbins)) = 1.
Proof.
  intros Hn Hpos (m & Hm & Hrange).
  set (bins := linspace (-3) 0 nbins).
  set (logs := map (fun x => ln x / ln 10) met).
  assert (Hinc : increasing bins)
    by (apply linspace_increasing; [lra | exact Hn]).
  assert (Hlen : length bins = nbins) by apply linspace_length.
  pose proof (increasing_monotone bins Hinc) as Hmono.
  pose proof (edge_widths_positive bins Hinc) as Hw.
  set (n := map (fun i => count (in_bin bins i) logs) (seq 0 (length bins - 1))).
  assert (Hhist : histogram logs bins = Ok n) by now apply histogram_counts.
  assert (Htot : (1 <= total n)%Z).
  { rewrite (histogram_sum logs bins n Hhist) by lia.
    apply (count_positive _ logs (ln m / ln 10)).
    - apply in_map_iff. now exists m.
    - rewrite Hlen. unfold bins. rewrite linspace_first by lia.
      rewrite linspace_last by exact Hn.
      destruct (log10_in_decades m Hrange) as [Ha Hb].
      now rewrite !Rleb_true. }
  assert (Hnlen : length n = length (edge_widths bins))
    by (unfold n; now rewrite length_map, length_seq, edge_widths_length).
  eexists. split; [| split; [| split; [| split]]].
  - unfold _plot_metallicity, pbind, lift, draw. fold bins.
    rewrite (finite_log10_positive met Hpos). fold logs.
    unfold histogram_density. rewrite Hhist. cbn [Py.bind].
    rewrite (existsb_zero_width _ Hw). cbn [orb].
    change (fold_right Z.add 0%Z n) with (total n).
    destruct (Z.eqb_spec (total n) 0) as [E | _]; [lia |].
    cbn [andb]. reflexivity.
  - cbn [xdata]. unfold bin_centers. now rewrite length_map, length_seq, Hlen.
  - cbn [ydata]. rewrite length_map, length_combine, <- Hnlen, Nat.min_id.
    unfold n. now rewrite length_map, length_seq, Hlen.
  - cbn [ydata]. intros y Hy. apply in_map_iff in Hy as ([c w] & <- & Hin).
    cbn [fst snd].
    pose proof (in_combine_l _ _ _ _ Hin) as Hc.
    pose proof (in_combine_r _ _ _ _ Hin) as Hwin.
    rewrite Forall_forall in Hw. specialize (Hw w Hwin).
    assert (Hc0 : (0 <= c)%Z).
    { unfold n in Hc. apply in_map_iff in Hc as (i & <- & _). apply count_nonneg. }
    apply IZR_le in Hc0, Htot.
    apply Rmult_le_pos; [apply Rmult_le_pos; [exact Hc0 |] |];
      apply Rlt_le, Rinv_0_lt_compat; lra.
  - cbn [ydata]. change (fold_right Z.add 0%Z n) with (total n).
    rewrite (density_area n (edge_widths bins) (total n) Hnlen Hw) by lia.
    apply IZR_le in Htot. field. lra.
Qed.

Lemma metallicity_density_integrates_to_one_witness :
  exists c : curve,
    _plot_metallicity [1; / 1000] 3 "blue" "-" "" [] = ([] ++ [c], Ok tt) /\
    area (ydata c) (edge_widths (linspace (-3) 0 3)) = 1.
Proof.
  assert (Hn : (2 <= 3)%nat) by lia.
  assert (Hpos : Forall (fun m => 0 < m) [1; / 1000]).
  { repeat (constructor; [lra |]). constructor. }
  assert (Hin : exists m : R, In m [1; / 1000] /\ / 1000 <= m <= 1).
  { exists 1. split; [now left | lra]. }
  destruct (metallicity_density_integrates_to_one [1; / 1000] 3 "blue" "-" ""
              [] Hn Hpos Hin) as (c & Hrun & _ & _ & _ & Harea).
  exists c. split; assumption.
Defined.

(** ** Metallicity against velocity width *)

Lemma compress_map_filter {A : Type} (f : A -> bool) (a : list A) :
  compress (map f a) a = filter f a.
Proof.
  induction a as [| x t IH]; [reflexivity |].
  simpl. destruct (f x); now rewrite IH.
Qed.

Lemma compress_In {A : Type} (m : list bool) (a : list A) (x : A) :
  In x (compress m a) -> In x a.
Proof.
  revert a. induction m as [| b m IH]; intros [| y t]; simpl; try tauto.
  destruct b; simpl; intros H.
  - destruct H as [-> | H]; [now left | right; now apply IH].
  - right. now apply IH.
Qed.

(** X13: [plot_Z_vs_vel_width] keeps the sightlines whose metallicity
    exceeds 1e-4, the same ones from both arrays, so the logarithm of the
    metallicity axis is always finite, whatever the metallicities are;
    when the velocity widths are positive as well, the call gets to its
    bin centres with 11 edges and 10 centres on either axis. *)
Theorem Z_vs_vel_width_cut (vel met : list R) :
  length met = length vel ->
  Forall (fun v => 0 < v) vel ->
  exists (met' vel' : list R) (ax : contour_axes),
    take met (where_ (map (fun m => Rltb 1e-4 m) met)) = Ok met' /\
    take vel (where_ (map (fun m => Rltb 1e-4 m) met)) = Ok vel' /\
    length met' = length vel' /\
    (forall m : R, In m met' -> 1e-4 < m) /\
    finite (map log10 met') = Ok (map (fun m => ln m / ln 10) met') /\
    plot_Z_vs_vel_width vel met = Ok ax /\
    length (xedges ax) = 11%nat /\ length (yedges ax) = 11%nat /\
    length (xbins ax) = 10%nat /\ length (ybins ax) = 10%nat.
Proof.
  intros Hlen Hpos.
  set (mask := map (fun m => Rltb 1e-4 m) met).
  assert (Hmlen : length mask = length met) by apply length_map.
  assert (Hmet : take met (where_ mask) = Ok (compress mask met))
    by (apply take_where; lia).
  assert (Hvel : take vel (where_ mask) = Ok (compress mask vel))
    by (apply take_where; lia).
  assert (Hcut : forall m : R, In m (compress mask met) -> 1e-4 < m).
  { unfold mask. rewrite compress_map_filter. intros m Hm.
    apply filter_In in Hm as [_ Hm]. now apply Rltb_spec. }
  assert (Hmpos : Forall (fun m => 0 < m) (compress mask met)).
  { apply Forall_forall. intros m Hm. specialize (Hcut m Hm). lra. }
  assert (Hvpos : Forall (fun v => 0 < v) (compress mask vel)).
  { apply Forall_forall. intros v Hv. rewrite Forall_forall in Hpos.
    eapply Hpos, compress_In, Hv. }
  set (xs := map (fun v => ln v / ln 10) (compress mask vel)).
  set (ys := map (fun m => ln m / ln 10) (compress mask met)).
  destruct (histogram2d_edges xs 10) as [xe | |] eqn:Hx; try discriminate.
  destruct (histogram2d_edges ys 10) as [ye | |] eqn:Hy; try discriminate.
  destruct (axis_of_histogram2d xs 10 xe true Hx) as (Lx & Cx & _).
  destruct (axis_of_histogram2d ys 10 ye true Hy) as (Ly & Cy & _).
  eexists _, _, _. split; [exact Hmet |]. split; [exact Hvel |].
  split; [| split; [exact Hcut | split; [now apply finite_log10_positive | split]]].
  - rewrite !compress_length by lia. reflexivity.
  - unfold plot_Z_vs_vel_width. fold mask. rewrite Hmet. cbn [Py.bind].
    rewrite Hvel. cbn [Py.bind].
    unfold _plot_2d_contour, contour_transform, log_axis. cbn [Py.bind fst snd].
    rewrite (finite_log10_positive _ Hvpos), (finite_log10_positive _ Hmpos).
    cbn [Py.bind]. fold xs ys. rewrite Hx, Hy. cbn [Py.bind]. reflexivity.
  - cbn [xedges yedges xbins ybins]. auto.
Qed.

Lemma Z_vs_vel_width_cut_witness :
  exists ax : contour_axes, plot_Z_vs_vel_width [30; 200] [0; 1 / 10] = Ok ax.
Proof.
  assert (Hpos : Forall (fun v => 0 < v) [30; 200])
    by (repeat (constructor; [lra |]); constructor).
  destruct (Z_vs_vel_width_cut [30; 200] [0; 1 / 10] eq_refl Hpos)
    as (met' & vel' & ax & _ & _ & _ & _ & _ & Hrun & _).
  exists ax. exact Hrun.
Defined.

(** ** Which sightlines a range is made of *)

Lemma setup_selection (self : Spectra) (array : list R) (filt : index) (dv : R)
    (log : bool) (env : breakdown_env) :
  breakdown_setup self array filt dv log = Ok env ->
  exists halo_f : list Z,
    getitem (find_nearest_halo self) filt = Ok halo_f /\
    getitem array filt = Ok (array_f env) /\
    length halo_f = length (array_f env) /\
    ind env = where_ (map (fun h => (0 <? h)%Z) halo_f) /\
    virial env
    = map (sub_virial self) (compress (map (fun h => (0 <? h)%Z) halo_f) halo_f).
Proof.
  unfold breakdown_setup.
  destruct (getitem (find_nearest_halo self) filt) as [halo_f | |] eqn:Hh;
    simpl; try discriminate.
  rewrite take_where by (rewrite length_map; lia). simpl.
  destruct (getitem array filt) as [arr | |] eqn:Ha; simpl; try discriminate.
  destruct (make_v_table log arr dv) as [vt | |]; simpl; try discriminate.
  destruct (histogram arr vt) as [h | |]; simpl; try discriminate.
  intros H. injection H as <-. exists halo_f. simpl.
  repeat split; auto. exact (getitem_same_length _ _ _ _ _ Hh Ha).
Qed.

Lemma range_of_pairs (sv : Z -> R) (test : R -> bool) (halo_f : list Z)
    (arr : list R) :
  length halo_f = length arr ->
  compress
    (map test (map sv (compress (map (fun h => (0 <? h)%Z) halo_f) halo_f)))
    (compress (map (fun h => (0 <? h)%Z) halo_f) arr)
  = map snd
      (filter (fun p => (0 <? fst p)%Z && test (sv (fst p)))
         (combine halo_f arr)).
Proof.
  revert arr. induction halo_f as [| h t IH]; intros [| x r] Hlen;
    try discriminate; [reflexivity |].
  injection Hlen as Hlen. specialize (IH r Hlen).
  cbn [map compress combine filter fst snd].
  destruct (0 <? h)%Z; cbn [map compress andb]; [| exact IH].
  destruct (test (sv h)); cbn [map]; now rewrite IH.
Qed.

(** X14: the values that [_plot_breakdown] attributes to a range are,
    in the order of the filtered sightlines, the values of exactly those
    sightlines whose nearest halo has an index above 0 and whose virial
    velocity lies strictly between the bounds of the range; a sightline
    whose nearest halo is halo 0 is attributed to no range, like one
    without a halo. *)
Theorem range_values_by_sightline (self : Spectra) (array : list R)
    (filt : index) (dv : R) (log : bool) (env : breakdown_env) (lo hi : R) :
  breakdown_setup self array filt dv log = Ok env ->
  exists halo_f : list Z,
    getitem (find_nearest_halo self) filt = Ok halo_f /\
    getitem array filt = Ok (array_f env) /\
    range_values env lo hi
    = map snd
        (filter (fun p => (0 <? fst p)%Z
                          && (Rltb lo (sub_virial self (fst p))
                              && Rltb (sub_virial self (fst p)) hi))
           (combine halo_f (array_f env))).
Proof.
  intros Hsetup.
  destruct (setup_selection _ _ _ _ _ _ Hsetup)
    as (halo_f & Hh & Ha & Hlen & Hind & Hvir).
  exists halo_f. split; [exact Hh |]. split; [exact Ha |].
  unfold range_values, halo_values.
  rewrite Hind, take_where by (rewrite length_map; lia).
  rewrite Hvir.
  exact (range_of_pairs (sub_virial self)
           (fun v => Rltb lo v && Rltb v hi) halo_f (array_f env) Hlen).
Qed.

Lemma range_values_by_sightline_witness :
  exists (env : breakdown_env) (halo_f : list Z),
    getitem (find_nearest_halo two_halos) (Ints [0; 1]%nat) = Ok halo_f /\
    getitem [1; 3] (Ints [0; 1]%nat) = Ok (array_f env) /\
    range_values env 0 60
    = map snd
        (filter (fun p => (0 <? fst p)%Z
                          && (Rltb 0 (sub_virial two_halos (fst p))
                              && Rltb (sub_virial two_halos (fst p)) 60))
           (combine halo_f (array_f env))).
Proof.
  destruct two_halos_setup as [env Hsetup]. exists env.
  exact (range_values_by_sightline two_halos [1; 3] (Ints [0; 1]%nat) 1 false
           env 0 60 Hsetup).
Defined.

(** ** The bins of the separated fraction *)

(** X15: for a positive bin width, the bin centres of [plot_sep_frac]
    lie strictly between 10 and 1000, whatever the velocity widths are:
    the edges are powers of ten with exponents from 1 to below 3. *)
Theorem sep_frac_bins_between_10_and_1000 (vels : list R) (ind sep : index)
    (dv : R) (color ls label : string) (fig fig' : list curve) :
  0 < dv ->
  plot_sep_frac vels ind sep dv color ls label fig = (fig', Ok tt) ->
  exists c : curve,
    fig' = fig ++ [c] /\ logx c = true /\
    forall x : R, In x (xdata c) -> 10 < x < 1000.
Proof.
  intros Hdv. unfold plot_sep_frac, pbind, lift, draw.
  destruct (arange_edges 1 3 dv Hdv) as (e & -> & Hinc & Hin & _).
  destruct (getitem vels ind) as [vels_f | |]; try discriminate.
  destruct (histogram vels_f _) as [hist1 | |]; try discriminate.
  destruct (getitem vels_f sep) as [vels_sep | |]; try discriminate.
  destruct (histogram vels_sep _) as [hist2 | |]; try discriminate.
  intros H. injection H as <-.
  eexists. split; [reflexivity |]. split; [reflexivity |]. cbn [xdata].
  intros x Hx. destruct (In_nth _ _ 0 Hx) as (i & Hi & <-).
  unfold bin_centers in Hi. rewrite length_map, length_seq in Hi.
  assert (Hinc' : increasing (map pow10 e))
    by (apply map_increasing; [exact pow10_lt | exact Hinc]).
  assert (Hlen : (S i < length (map pow10 e))%nat) by lia.
  rewrite bin_centers_nth by exact Hlen.
  pose proof (increasing_step _ i Hinc' Hlen) as Hstep.
  assert (Hbound : forall k : nat, (k < length (map pow10 e))%nat ->
                     10 <= nth k (map pow10 e) 0 < 1000).
  { intros k Hk. rewrite length_map in Hk.
    rewrite (nth_map_in pow10 e k 0 0 Hk).
    destruct (Hin (nth k e 0) (nth_In e 0 Hk)) as [Ha Hb].
    assert (H1 : pow10 1 = 10)
      by (change 1 with (INR 1) at 1; rewrite pow10_INR; simpl; lra).
    assert (H3 : pow10 3 = 1000)
      by (replace 3 with (INR 3) by (simpl; lra); rewrite pow10_INR; simpl; lra).
    rewrite <- H1, <- H3. split; [| now apply pow10_lt].
    destruct Ha as [Ha | <-]; [apply Rlt_le, pow10_lt; exact Ha | lra]. }
  pose proof (Hbound i ltac:(lia)). pose proof (Hbound (S i) Hlen). lra.
Qed.

Lemma sep_frac_bins_between_10_and_1000_witness :
  exists c : curve,
    fst (plot_sep_frac [20; 50] (Ints [0; 1]%nat) (Mask [true; false]) 1
           "blue" "-" "" []) = [] ++ [c] /\
    forall x : R, In x (xdata c) -> 10 < x < 1000.
Proof.
  assert (Hm : monotone (map pow10 [1; 2]) = true).
  { apply increasing_monotone, map_increasing; [exact pow10_lt |].
    simpl. repeat split; lra. }
  assert (Hrun : exists fig',
             plot_sep_frac [20; 50] (Ints [0; 1]%nat) (Mask [true; false]) 1
               "blue" "-" "" [] = (fig', Ok tt)).
  { unfold plot_sep_frac, pbind, lift, draw. rewrite sep_frac_edges.
    cbn [getitem take subscript nth_error Py.bind length Nat.eqb where_
         where_from].
    rewrite !histogram_counts by exact Hm.
    eexists. reflexivity. }
  destruct Hrun as [fig' Hrun].
  assert (Hdv : 0 < 1) by lra.
  destruct (sep_frac_bins_between_10_and_1000 _ _ _ _ _ _ _ _ _ Hdv Hrun)
    as (c & E & _ & Hx).
  exists c. rewrite Hrun. split; [exact E | exact Hx].
Defined.

(** ** Velocity width over virial velocity *)

Lemma log10_of_pow10 (x : R) : log10 (pow10 x) = Fin x.
Proof.
  rewrite log10_pos by apply exp_pos. f_equal.
  unfold pow10, Rpower. rewrite ln_exp. field. pose proof ln_10_pos. lra.
Qed.

Lemma finite_log10_pow10 (e : list R) : finite (map log10 (map pow10 e)) = Ok e.
Proof.
  induction e as [| x t IH]; [reflexivity |].
  simpl. now rewrite log10_of_pow10, IH.
Qed.

Lemma total_nonneg (n : list Z) :
  Forall (fun c => (0 <= c)%Z) n -> (0 <= total n)%Z.
Proof.
  induction 1 as [| c t Hc Ht IH]; unfold total in *; simpl; lia.
Qed.

(** What a density histogram is when it returns over growing edges. *)
Lemma histogram_density_run (a bins : list R) (pdf : list R) :
  increasing bins ->
  histogram_density a bins = Ok pdf ->
  length pdf = (length bins - 1)%nat /\
  (forall y : R, In y pdf -> 0 <= y) /\
  ((2 <= length bins)%nat -> area pdf (edge_widths bins) = 1).
Proof.
  intros Hinc. unfold histogram_density.
  rewrite histogram_counts by (apply increasing_monotone, Hinc).
  cbn [Py.bind].
  set (n := map (fun i => count (in_bin bins i) a) (seq 0 (length bins - 1))).
  pose proof (edge_widths_positive bins Hinc) as Hw.
  rewrite (existsb_zero_width _ Hw). cbn [orb].
  change (fold_right Z.add 0%Z n) with (total n).
  assert (Hnlen : length n = (length bins - 1)%nat)
    by (unfold n; now rewrite length_map, length_seq).
  assert (Hnn : Forall (fun c => (0 <= c)%Z) n).
  { apply Forall_forall. intros c Hc. unfold n in Hc.
    apply in_map_iff in Hc as (i & <- & _). apply count_nonneg. }
  pose proof (total_nonneg n Hnn) as Htot.
  destruct (Z.eqb_spec (total n) 0) as [E | E]; cbn [andb].
  - destruct (Nat.eqb_spec (length n) 0) as [E0 | E0]; cbn [negb];
      [| discriminate].
    intros H. injection H as <-.
    destruct n; [| discriminate]. simpl.
    split; [lia |]. split; [intros y [] |]. intros H2. simpl in Hnlen. lia.
  - intros H. injection H as <-.
    assert (Hs : 0 < IZR (total n)) by (apply IZR_lt; lia).
    split; [| split].
    + rewrite length_map, length_combine, edge_widths_length, Hnlen.
      apply Nat.min_id.
    + intros y Hy. apply in_map_iff in Hy as ([c w] & <- & Hin).
      cbn [fst snd].
      pose proof (in_combine_l _ _ _ _ Hin) as Hc.
      pose proof (in_combine_r _ _ _ _ Hin) as Hwin.
      rewrite Forall_forall in Hw, Hnn.
      specialize (Hw w Hwin). specialize (Hnn c Hc). apply IZR_le in Hnn.
      apply Rmult_le_pos; [apply Rmult_le_pos; [exact Hnn |] |];
        apply Rlt_le, Rinv_0_lt_compat; lra.
    + intros _.
      rewrite (density_area n (edge_widths bins) (total n)); try assumption.
      * field. lra.
      * now rewrite edge_widths_length.
Qed.

(** X16: for a positive bin width, when [plot_virial_vel_vs_vel_width]
    returns, it has drawn one curve, of the density it returns over the bin
    centres it returns; the two arrays have one length; the bin centres
    are those of edges [10**e] for exponents [e] that grow strictly; no
    density is negative; and with two or more edges the densities times
    the widths of their bins, taken in the log domain, add up to 1. *)
Theorem virial_ratio_density (self : Spectra) (vel_width : list R)
    (ind : index) (dm : R) (color ls label : string) (fig fig' : list curve)
    (mbin pdf : list R) :
  0 < dm ->
  plot_virial_vel_vs_vel_width self vel_width ind dm color ls label fig
  = (fig', Ok (mbin, pdf)) ->
  fig' = fig ++ [{| logx := true; xdata := mbin; ydata := pdf;
                    color := color; ls := ls; label := label |}] /\
  length pdf = length mbin /\
  (forall y : R, In y pdf -> 0 <= y) /\
  exists e : list R,
    increasing e /\ mbin = bin_centers (map pow10 e) /\
    ((2 <= length e)%nat -> area pdf (edge_widths e) = 1).
Proof.
  intros Hdm. unfold plot_virial_vel_vs_vel_width, pbind, lift, draw, ret.
  destruct (getitem (find_nearest_halo self) ind) as [halos_f | |];
    try discriminate.
  destruct (getitem vel_width ind) as [vel_f | |]; try discriminate.
  destruct (take vel_f _) as [vel | |]; try discriminate.
  destruct (take halos_f _) as [halos_ff | |]; try discriminate.
  destruct (divide vel _) as [vvvir | |]; try discriminate.
  destruct (Np.min vvvir) as [lo | |]; try discriminate.
  destruct (finite1 (log10 lo)) as [llo | |]; try discriminate.
  destruct (Np.max vvvir) as [hi | |]; try discriminate.
  destruct (finite1 (log10 hi)) as [lhi | |]; try discriminate.
  destruct (arange_edges llo lhi dm Hdm) as (e & -> & Hinc & _).
  destruct (finite (map log10 vvvir)) as [logs | |]; try discriminate.
  rewrite finite_log10_pow10.
  destruct (histogram_density logs e) as [pdf0 | |] eqn:Hpdf; try discriminate.
  intros H. injection H as <- <- <-.
  destruct (histogram_density_run logs e pdf0 Hinc Hpdf) as (Hlen & Hpos & Harea).
  split; [reflexivity |]. split; [| split; [exact Hpos |]].
  - unfold bin_centers. now rewrite Hlen, !length_map, !length_seq.
  - exists e. auto.
Qed.

Lemma div_eq (a b c : R) : b <> 0 -> a = c * b -> a / b = c.
Proof. intros Hb ->. field. exact Hb. Qed.

Lemma virial_ratio_run :
  exists (fig' : list curve) (mbin pdf : list R),
    plot_virial_vel_vs_vel_width two_halos [50.1; 100100] (Ints [0; 1]%nat) 2
      "red" "-" "" []
    = (fig', Ok (mbin, pdf)).
Proof.
  unfold plot_virial_vel_vs_vel_width, pbind, lift, draw, ret, divide, virial_vel.
  cbn [getitem take subscript nth_error Py.bind find_nearest_halo two_halos
       map Z.eqb negb where_ where_from sub_virial combine fst snd existsb].
  rewrite (div_eq 50.1 (50 * 1 + 0.1) 1) by lra.
  rewrite (div_eq 100100 (50 * 2 + 0.1) 1000) by lra.
  rewrite (Reqb_false (50 * 1 + 0.1) 0), (Reqb_false (50 * 2 + 0.1) 0) by lra.
  cbn [orb Np.min Np.max fold_left]. rminmax.
  rewrite log10_one. cbn [finite1].
  replace 1000 with (10 ^ 3) by (simpl; lra).
  rewrite log10_pow. cbn [finite1 map finite Py.bind].
  rewrite (arange_length 0 (INR 3) 2 2) by (simpl; lra).
  rewrite log10_one, log10_pow. cbn [finite Py.bind].
  rewrite finite_log10_pow10.
  change (Z.to_nat 2) with 2%nat. cbn [seq map].
  replace (0 + INR 0 * 2) with 0 by (simpl; lra).
  replace (0 + INR 1 * 2) with 2 by (simpl; lra).
  unfold histogram_density.
  rewrite histogram_counts by (simpl; rcmp; reflexivity).
  unfold count, in_bin. cbn [Py.bind length seq map nth Nat.sub Nat.eqb filter].
  replace (INR 3) with 3 by (simpl; lra). rcmp.
  cbn [andb filter length Z.of_nat fold_right edge_widths existsb].
  rewrite (Reqb_false (2 - 0) 0) by lra.
  cbn [orb Z.add Z.eqb andb]. eexists _, _, _. reflexivity.
Qed.

Lemma virial_ratio_density_witness :
  exists (mbin pdf e : list R),
    increasing e /\ mbin = bin_centers (map pow10 e) /\
    length pdf = length mbin.
Proof.
  destruct virial_ratio_run as (fig' & mbin & pdf & Hrun).
  assert (Hdm : 0 < 2) by lra.
  destruct (virial_ratio_density two_halos [50.1; 100100] (Ints [0; 1]%nat) 2
              "red" "-" "" [] fig' mbin pdf Hdm Hrun)
    as (_ & Hlen & _ & e & Hinc & Hm & _).
  exists mbin, pdf, e. auto.
Defined.
